(** * Google Docs link checker: a shallow embedding of [main.py]

    The development follows the class [LinkChecker]: Python strings are
    lists of Unicode code points, exceptions are class-tagged values
    caught by [isinstance] in the order of the [except] clauses, the
    HTTP session is a pair of reply functions whose requests are logged,
    and the thread pool hands the finished futures to the aggregation
    loop in an order chosen by a schedule. *)

From Stdlib Require Import String Ascii DecimalString.
From Stdlib Require Import ZArith NArith List Bool Lia Permutation.
Import ListNotations.

Local Open Scope list_scope.

(* ===================================================================== *)
(** ** Python [str] values *)
(* ===================================================================== *)

Module PyStr.

(** A Python 3 [str] is a sequence of code points; [len], slicing,
    [startswith] and [in] all count code points, not bytes. *)
Definition str := list N.

Definition continuation (b : N) : N := N.land b 0x3F.

(** The source file is UTF-8: string literals are decoded from their
    bytes so that the constants below read as they do in [main.py]. *)
Fixpoint utf8_decode (bs : list N) : str :=
  match bs with
  | [] => []
  | b :: rest =>
      if (b <? 0x80)%N then b :: utf8_decode rest
      else if (b <? 0xE0)%N then
        match rest with
        | b1 :: rest1 =>
            N.lor (N.shiftl (N.land b 0x1F) 6) (continuation b1)
              :: utf8_decode rest1
        | _ => []
        end
      else if (b <? 0xF0)%N then
        match rest with
        | b1 :: b2 :: rest2 =>
            N.lor (N.shiftl (N.land b 0x0F) 12)
              (N.lor (N.shiftl (continuation b1) 6) (continuation b2))
              :: utf8_decode rest2
        | _ => []
        end
      else
        match rest with
        | b1 :: b2 :: b3 :: rest3 =>
            N.lor (N.shiftl (N.land b 0x07) 18)
              (N.lor (N.shiftl (continuation b1) 12)
                 (N.lor (N.shiftl (continuation b2) 6) (continuation b3)))
              :: utf8_decode rest3
        | _ => []
        end
  end.

(** [u "..."] is the Python literal ["..."]. *)
Definition u (s : string) : str :=
  utf8_decode (map N_of_ascii (list_ascii_of_string s)).

(** [bool(s)]: a string is truthy when it is not empty. *)
Definition truthy (s : str) : bool :=
  match s with
  | [] => false
  | _ :: _ => true
  end.

(** [s.startswith(prefix)] *)
Fixpoint startswith (s prefix : str) : bool :=
  match prefix, s with
  | [], _ => true
  | _ :: _, [] => false
  | p :: prefix', c :: s' => (p =? c)%N && startswith s' prefix'
  end.

(** [sub in s] *)
Fixpoint contains (sub s : str) : bool :=
  startswith s sub ||
  match s with
  | [] => false
  | _ :: s' => contains sub s'
  end.

(** [s[:n]] for a non-negative [n] *)
Definition slice_to (n : nat) (s : str) : str := firstn n s.

(** [str(i)] for an [int]: decimal digits, with a leading minus sign. *)
Definition of_int (i : Z) : str :=
  u (NilZero.string_of_int (Z.to_int i)).

End PyStr.

Import PyStr.

(* ===================================================================== *)
(** ** Exceptions *)
(* ===================================================================== *)

Module Exc.

(** The builtin exception classes and those of [requests.exceptions]
    that [Session.head] and [Session.get] raise. *)
Inductive class : Type :=
  | BaseException | KeyboardInterrupt | SystemExit | Exception
  | OSError | ValueError
  | RequestException | HTTPError | ConnectionError | ProxyError
  | SSLError | Timeout | ConnectTimeout | ReadTimeout | URLRequired
  | TooManyRedirects | MissingSchema | InvalidSchema | InvalidURL
  | InvalidHeader | ChunkedEncodingError | RetryError.

Definition class_eq_dec (c d : class) : {c = d} + {c <> d}.
Proof. decide equality. Defined.

Definition class_eqb (c d : class) : bool :=
  if class_eq_dec c d then true else false.

(** The direct base classes, as the class statements list them. *)
Definition bases (c : class) : list class :=
  match c with
  | BaseException => []
  | KeyboardInterrupt | SystemExit | Exception => [BaseException]
  | OSError | ValueError => [Exception]
  | RequestException => [OSError]
  | HTTPError | ConnectionError | Timeout | URLRequired
  | TooManyRedirects | ChunkedEncodingError | RetryError =>
      [RequestException]
  | ProxyError | SSLError => [ConnectionError]
  | ConnectTimeout => [ConnectionError; Timeout]
  | ReadTimeout => [Timeout]
  | MissingSchema | InvalidSchema | InvalidURL | InvalidHeader =>
      [RequestException; ValueError]
  end.

Fixpoint issubclass_upto (depth : nat) (c d : class) : bool :=
  class_eqb c d ||
  match depth with
  | O => false
  | S depth' => existsb (fun b => issubclass_upto depth' b d) (bases c)
  end.

(** No class is more than five steps below [BaseException]. *)
Definition issubclass : class -> class -> bool := issubclass_upto 5.

(** An exception instance: its class and what [str(e)] gives. *)
Record t : Type := mk { type : class; str : PyStr.str }.

Definition isinstance (e : t) (c : class) : bool := issubclass (type e) c.

End Exc.

(** What a call does: it returns a value or raises. *)
Inductive result (A : Type) : Type :=
  | Returned (a : A)
  | Raised (e : Exc.t).

Arguments Returned {A} a.
Arguments Raised {A} e.

(* ===================================================================== *)
(** ** The HTTP session *)
(* ===================================================================== *)

Module Response.
Record t : Type := mk { status_code : Z }.
End Response.

(** [self.session], as one probe observes it.  Both methods are called
    with [timeout=10, allow_redirects=True]; a reply is the response at
    the end of the redirect chain, or the exception the call raises. *)
Record Session : Type := {
  head : str -> result Response.t;
  get : str -> result Response.t
}.

(** The requests a probe puts on the wire. *)
Inductive request : Type :=
  | HEAD (url : str)
  | GET (url : str).

Definition is_GET (r : request) : bool :=
  match r with
  | GET _ => true
  | HEAD _ => false
  end.

(** Computations that send requests and may raise: the log of the
    requests sent, then the result. *)
Definition IO (A : Type) : Type := (list request * result A)%type.

Definition ret {A : Type} (a : A) : IO A := ([], Returned a).

Definition raise {A : Type} (e : Exc.t) : IO A := ([], Raised e).

Definition bind {A B : Type} (m : IO A) (k : A -> IO B) : IO B :=
  match m with
  | (sent, Returned a) => let (sent', r) := k a in (sent ++ sent', r)
  | (sent, Raised e) => (sent, Raised e)
  end.

(** [try: body except ... as e: handler e] *)
Definition try_except {A : Type} (body : IO A) (handler : Exc.t -> IO A)
  : IO A :=
  match body with
  | (sent, Returned a) => (sent, Returned a)
  | (sent, Raised e) => let (sent', r) := handler e in (sent ++ sent', r)
  end.

Notation "x <- m ;; k" := (bind m (fun x => k))
  (at level 61, m at next level, right associativity).

Definition session_head (session : Session) (url : str) : IO Response.t :=
  ([HEAD url], head session url).

Definition session_get (session : Session) (url : str) : IO Response.t :=
  ([GET url], get session url).

(* ===================================================================== *)
(** ** [LinkChecker.check_link] *)
(* ===================================================================== *)

(** Lines 70-77: the status text for the final response's code. *)
Definition status_for (status_code : Z) : str :=
  if (200 <=? status_code)%Z && (status_code <? 400)%Z then
    u "✅ OK"
  else if (400 <=? status_code)%Z && (status_code <? 500)%Z then
    u "❌ BROKEN (Client Error)"
  else if (500 <=? status_code)%Z && (status_code <? 600)%Z then
    u "⚠️  SERVER ERROR"
  else
    u "⚠️  UNKNOWN (" ++ of_int status_code ++ u ")".

(** Lines 62-66: HEAD first, then GET when the server answers 405 or 404. *)
Definition request_with_fallback (session : Session) (url : str)
  : IO Response.t :=
  response <- session_head session url ;;
  if (Response.status_code response =? 405)%Z
     || (Response.status_code response =? 404)%Z
  then session_get session url
  else ret response.

(** Lines 81-90: the [except] clauses, tried in order; an exception that
    no clause matches propagates. *)
Definition handle (url : str) (e : Exc.t) : IO (str * Z * str) :=
  if Exc.isinstance e Exc.Timeout then
    ret (url, 0%Z, u "⏱️  TIMEOUT")
  else if Exc.isinstance e Exc.SSLError then
    ret (url, 0%Z, u "🔒 SSL ERROR")
  else if Exc.isinstance e Exc.ConnectionError then
    ret (url, 0%Z, u "❌ CONNECTION FAILED")
  else if Exc.isinstance e Exc.TooManyRedirects then
    ret (url, 0%Z, u "🔄 TOO MANY REDIRECTS")
  else if Exc.isinstance e Exc.Exception then
    ret (url, 0%Z, u "❌ ERROR: " ++ slice_to 50 (Exc.str e))
  else
    raise e.

Definition check_link (session : Session) (url : str)
  : IO (str * Z * str) :=
  try_except
    (response <- request_with_fallback session url ;;
     let status_code := Response.status_code response in
     let status := status_for status_code in
     ret (url, status_code, status))
    (handle url).

(* ===================================================================== *)
(** ** [LinkChecker.extract_links] *)
(* ===================================================================== *)

(** An [<a>] tag of the parsed document: [anchor['href']] and
    [anchor.get_text(strip=True)]. *)
Record Anchor : Type := { href : str; get_text : str }.

Section ExtractLinks.

(** [BeautifulSoup(html, 'html.parser').find_all('a', href=True)]: the
    anchors that carry an [href] attribute, in document order.  The
    parser is a library; the function takes it as given. *)
Variable find_all_a_href : str -> list Anchor.

(** Line 53: [url and not url.startswith('#')]. *)
Definition is_link (url : str) : bool :=
  truthy url && negb (startswith url (u "#")).

(** The body of the [for] loop, lines 49-54. *)
Definition extract_step (links : list (str * str)) (anchor : Anchor)
  : list (str * str) :=
  let url := href anchor in
  let text := get_text anchor in
  if is_link url
  then links ++ [(url, text)]
  else links.

Definition extract_links (html : str) : list (str * str) :=
  fold_left extract_step (find_all_a_href html) [].

End ExtractLinks.

(* ===================================================================== *)
(** ** [LinkChecker.check_all_links] *)
(* ===================================================================== *)

(** One [result] dictionary of the report. *)
Module Entry.
Record t : Type := mk {
  url : str;
  text : str;
  status_code : Z;
  status : str
}.
End Entry.

(** The [results] dictionary: its three lists. *)
Record Results : Type := {
  working : list Entry.t;
  broken : list Entry.t;
  errors : list Entry.t
}.

Definition empty_results : Results :=
  {| working := []; broken := []; errors := [] |}.

(** Lines 114-119: the entry made for a finished probe. *)
Definition make_result (url text : str) (status_code : Z) (status : str)
  : Entry.t :=
  {| Entry.url := url; Entry.text := text;
     Entry.status_code := status_code; Entry.status := status |}.

(** Line 122: ['✅' in status]. *)
Definition marked_ok (status : str) : bool := contains (u "✅") status.

(** Line 125: [status_code >= 400 and status_code < 600]. *)
Definition in_error_range (status_code : Z) : bool :=
  (status_code >=? 400)%Z && (status_code <? 600)%Z.

(** Lines 114-130: build the entry and append it to one list.  The
    [print] calls write to the terminal only and are left out. *)
Definition categorize (results : Results) (url text : str)
  (status_code : Z) (status : str) : Results :=
  let result := make_result url text status_code status in
  if marked_ok status then
    {| working := working results ++ [result];
       broken := broken results;
       errors := errors results |}
  else if in_error_range status_code then
    {| working := working results;
       broken := broken results ++ [result];
       errors := errors results |}
  else
    {| working := working results;
       broken := broken results;
       errors := errors results ++ [result] |}.

(** The three lists of the report, and the one that lines 122-130 pick
    for a probe's status code and status text. *)
Inductive bucket : Type := Working | Broken | Errors.

Definition bucket_of (status_code : Z) (status : str) : bucket :=
  if marked_ok status then Working
  else if in_error_range status_code then Broken
  else Errors.

Definition bucket_eqb (b b' : bucket) : bool :=
  match b, b' with
  | Working, Working | Broken, Broken | Errors, Errors => true
  | _, _ => false
  end.

(** The link an entry of the report was made for. *)
Definition link_of (result : Entry.t) : str * str :=
  (Entry.url result, Entry.text result).

(** Everything a report holds, bucket after bucket. *)
Definition entries (results : Results) : list Entry.t :=
  working results ++ broken results ++ errors results.

(** A future holds what its call to [check_link] returned or raised;
    [future_to_link] pairs each future with the link it was made for. *)
Definition Future : Type := result (str * Z * str).

(** The network during a run: the session as the probe of the [i]-th
    submitted link observes it. *)
Definition Network : Type := nat -> Session.

(** Lines 104-107: one future per element of [links], in order; equal
    links still give distinct futures, so no dictionary key collides. *)
Fixpoint submit_all (net : Network) (i : nat) (links : list (str * str))
  : list (Future * (str * str)) :=
  match links with
  | [] => []
  | (url, text) :: rest =>
      (snd (check_link (net i) url), (url, text))
        :: submit_all net (S i) rest
  end.

Fixpoint remove_nth {A : Type} (k : nat) (l : list A) : list A :=
  match l, k with
  | [], _ => []
  | _ :: l', O => l'
  | x :: l', S k' => x :: remove_nth k' l'
  end.

Fixpoint as_completed_upto {A : Type} (n : nat) (sched : list nat)
  (pending : list A) : list A :=
  match n, pending with
  | S n', first :: _ =>
      let k := Nat.modulo (hd 0 sched) (length pending) in
      nth k pending first
        :: as_completed_upto n' (tl sched) (remove_nth k pending)
  | _, _ => []
  end.

(** [as_completed(fs)]: every future, once, in the order in which the
    workers finish.  The schedule says which of the pending futures
    finishes next. *)
Definition as_completed {A : Type} (sched : list nat) (fs : list A)
  : list A :=
  as_completed_upto (length fs) sched fs.

(** A future whose probe returned [outcome], with its link. *)
Definition finished (done : (str * Z * str) * (str * str))
  : Future * (str * str) :=
  (Returned (fst done), snd done).

(** The entry that the loop makes for a finished probe. *)
Definition entry_for (done : (str * Z * str) * (str * str)) : Entry.t :=
  let '((_, status_code, status), (url, text)) := done in
  make_result url text status_code status.

(** The finished probes whose entry goes to list [b]. *)
Definition select (b : bucket) (done : list ((str * Z * str) * (str * str)))
  : list ((str * Z * str) * (str * str)) :=
  filter (fun d => bucket_eqb (bucket_of (snd (fst (fst d))) (snd (fst d))) b)
    done.

(** Lines 110-130: the loop over the finished futures.  [future.result()]
    raises what the call raised, which ends the loop. *)
Fixpoint collect (results : Results)
  (completed : list (Future * (str * str))) : result Results :=
  match completed with
  | [] => Returned results
  | (future, (url, text)) :: rest =>
      match future with
      | Raised e => Raised e
      | Returned (check_url, status_code, status) =>
          collect (categorize results url text status_code status) rest
      end
  end.

Definition max_workers_error : Exc.t :=
  Exc.mk Exc.ValueError (u "max_workers must be greater than 0").

(** [ThreadPoolExecutor(max_workers=...)] refuses a pool without workers;
    beyond that [max_workers] bounds how many probes run at once and has no
    part in the results. *)
Definition check_all_links (net : Network) (links : list (str * str))
  (max_workers : Z) (sched : list nat) : result Results :=
  let results := empty_results in
  if (max_workers <=? 0)%Z then Raised max_workers_error
  else
    let future_to_link := submit_all net 0 links in
    collect results (as_completed sched future_to_link).

Definition default_max_workers : Z := 10.

(* ===================================================================== *)
(** ** [LinkChecker.extract_doc_id] and [LinkChecker.__init__] *)
(* ===================================================================== *)

(** The character class [[a-zA-Z0-9-_]]: the three ranges, then the
    hyphen and the underscore as literals. *)
Definition is_id_char (c : N) : bool :=
  ((0x61 <=? c)%N && (c <=? 0x7A)%N)
  || ((0x41 <=? c)%N && (c <=? 0x5A)%N)
  || ((0x30 <=? c)%N && (c <=? 0x39)%N)
  || (c =? 0x2D)%N || (c =? 0x5F)%N.

(** The longest prefix of [s] made of characters that satisfy [p]: what
    a greedy [[...]+] at the end of a pattern consumes. *)
Fixpoint take_while (p : N -> bool) (s : str) : str :=
  match s with
  | [] => []
  | c :: s' => if p c then c :: take_while p s' else []
  end.

(** The pattern [/d/([a-zA-Z0-9-_]+)] tried at the start of [s]: group 1
    of the match, if there is one. *)
Definition match_doc_id_at (s : str) : option str :=
  if startswith s (u "/d/") then
    match take_while is_id_char (skipn 3 s) with
    | [] => None
    | c :: id => Some (c :: id)
    end
  else None.

(** [re.search]: the match at the leftmost position that has one. *)
Fixpoint search_doc_id (url : str) : option str :=
  match match_doc_id_at url with
  | Some id => Some id
  | None =>
      match url with
      | [] => None
      | _ :: rest => search_doc_id rest
      end
  end.

Definition invalid_url_error : Exc.t :=
  Exc.mk Exc.ValueError (u "Invalid Google Docs URL").

(** Lines 25-30. *)
Definition extract_doc_id (url : str) : result str :=
  match search_doc_id url with
  | None => Raised invalid_url_error
  | Some id => Returned id
  end.

(** The attributes that [__init__] sets from its argument; the session
    with its [User-Agent] header is the network's side. *)
Module Checker.
Record t : Type := mk {
  doc_url : str;
  doc_id : str;
  export_url : str
}.
End Checker.

(** Line 19: the f-string of the export address. *)
Definition export_url_of (doc_id : str) : str :=
  u "https://docs.google.com/document/d/" ++ doc_id
    ++ u "/export?format=html".

(** Lines 16-23: [LinkChecker(doc_url)]. *)
Definition LinkChecker (doc_url : str) : result Checker.t :=
  match extract_doc_id doc_url with
  | Raised e => Raised e
  | Returned doc_id =>
      Returned {| Checker.doc_url := doc_url;
                  Checker.doc_id := doc_id;
                  Checker.export_url := export_url_of doc_id |}
  end.

(* ===================================================================== *)
(** ** [LinkChecker.fetch_document] *)
(* ===================================================================== *)

(** The response to the export request: its status and its [text]. *)
Record Document : Type := {
  doc_response : Response.t;
  doc_text : str
}.

(** [response.raise_for_status()]: [HTTPError] for a status in
    [400, 600), nothing otherwise.  The message only reaches the
    terminal. *)
Definition raise_for_status (response : Response.t) : result unit :=
  let code := Response.status_code response in
  if (400 <=? code)%Z && (code <? 600)%Z
  then Raised (Exc.mk Exc.HTTPError (of_int code ++ u " Error"))
  else Returned tt.

(** [sys.exit(1)] raises [SystemExit(1)]. *)
Definition sys_exit_1 : Exc.t := Exc.mk Exc.SystemExit (u "1").

(** Lines 32-41.  [session_get_text] is [self.session.get(url,
    timeout=10)] on the export address. *)
Definition fetch_document (session_get_text : str -> result Document)
  (self : Checker.t) : result str :=
  let body :=
    match session_get_text (Checker.export_url self) with
    | Raised e => Raised e
    | Returned response =>
        match raise_for_status (doc_response response) with
        | Raised e => Raised e
        | Returned _ => Returned (doc_text response)
        end
    end in
  match body with
  | Returned text => Returned text
  | Raised e =>
      if Exc.isinstance e Exc.RequestException
      then Raised sys_exit_1
      else Raised e
  end.

(* ===================================================================== *)
(** ** [LinkChecker.print_summary] *)
(* ===================================================================== *)

(** ['='*80] *)
Definition rule : str := repeat 0x3D%N 80.

(** [f"\n{...}"]: a line feed in front. *)
Definition nl (s : str) : str := 10%N :: s.

Definition of_len (n : nat) : str := of_int (Z.of_nat n).

(** Lines 150-153: what is printed for one broken entry. *)
Definition print_broken_item (item : Entry.t) : list str :=
  [ nl (u "Link Text: " ++ Entry.text item);
    u "URL: " ++ Entry.url item;
    u "Status: " ++ Entry.status item ++ u " ["
      ++ of_int (Entry.status_code item) ++ u "]" ].

(** Lines 159-162: what is printed for one entry with an error. *)
Definition print_error_item (item : Entry.t) : list str :=
  [ nl (u "Link Text: " ++ Entry.text item);
    u "URL: " ++ Entry.url item;
    u "Status: " ++ Entry.status item ].

(** Lines 134-162: the arguments of the [print] calls, in order. *)
Definition print_summary (results : Results) : list str :=
  let total :=
    (length (working results) + length (broken results)
     + length (errors results))%nat in
  [ nl rule;
    u "📊 SUMMARY";
    rule;
    u "Total links checked: " ++ of_len total;
    u "✅ Working: " ++ of_len (length (working results));
    u "❌ Broken: " ++ of_len (length (broken results));
    u "⚠️  Errors/Timeouts: " ++ of_len (length (errors results)) ]
  ++ match broken results with
     | [] => []
     | _ :: _ =>
         [ nl rule; u "❌ BROKEN LINKS"; rule ]
         ++ flat_map print_broken_item (broken results)
     end
  ++ match errors results with
     | [] => []
     | _ :: _ =>
         [ nl rule; u "⚠️  LINKS WITH ERRORS"; rule ]
         ++ flat_map print_error_item (errors results)
     end.

(* ===================================================================== *)
(** ** [main] *)
(* ===================================================================== *)

(** Line 166. *)
Definition main_doc_url : str :=
  u "https://docs.google.com/document/d/1hWoVry0Rl5JeTL1-OE6VyOxV3C25qkfTyEP3f6MamjU/edit?tab=t.0".

Definition and_then {A B : Type} (r : result A) (k : A -> result B)
  : result B :=
  match r with
  | Returned a => k a
  | Raised e => Raised e
  end.

(** Lines 171-191: the [try] block.  What is printed is left out, as in
    [check_all_links]; [print_summary] only prints. *)
Definition main_body (session_get_text : str -> result Document)
  (find_all_a_href : str -> list Anchor) (net : Network)
  (sched : list nat) : result unit :=
  and_then (LinkChecker main_doc_url) (fun checker =>
  and_then (fetch_document session_get_text checker) (fun html_content =>
  let links := extract_links find_all_a_href html_content in
  match links with
  | [] => Returned tt
  | _ :: _ =>
      and_then (check_all_links net links default_max_workers sched)
        (fun results => Returned tt)
  end)).

(** Lines 164-198: [main], with its two [except] clauses, each of which
    ends in [sys.exit(1)]. *)
Definition main (session_get_text : str -> result Document)
  (find_all_a_href : str -> list Anchor) (net : Network)
  (sched : list nat) : result unit :=
  match main_body session_get_text find_all_a_href net sched with
  | Returned tt => Returned tt
  | Raised e =>
      if Exc.isinstance e Exc.KeyboardInterrupt then Raised sys_exit_1
      else if Exc.isinstance e Exc.Exception then Raised sys_exit_1
      else Raised e
  end.

(* ===================================================================== *)
(** ** Sessions and networks used in the examples *)
(* ===================================================================== *)

Definition respond (code : Z) : str -> result Response.t :=
  fun _ => Returned (Response.mk code).

Definition fail_with (e : Exc.t) : str -> result Response.t :=
  fun _ => Raised e.

(** A server that answers HEAD with [head_code] and GET with [get_code]. *)
Definition server (head_code get_code : Z) : Session :=
  {| head := respond head_code; get := respond get_code |}.

(** A session whose every request raises [e]. *)
Definition failing (e : Exc.t) : Session :=
  {| head := fail_with e; get := fail_with e |}.

(** What [requests] raises for a URL whose scheme has no adapter. *)
Definition invalid_schema (url : str) : Exc.t :=
  Exc.mk Exc.InvalidSchema
    (u "No connection adapters were found for '" ++ url ++ u "'").

Definition no_adapter : Session :=
  {| head := fun url => Raised (invalid_schema url);
     get := fun url => Raised (invalid_schema url) |}.

(** Three hosts: one that answers 200, one that answers 404 to both
    requests, and one whose TLS handshake fails. *)
Definition three_hosts : Network :=
  fun i =>
    match i with
    | O => server 200 200
    | S O => server 404 404
    | _ => failing (Exc.mk Exc.SSLError (u "certificate verify failed"))
    end.

Definition three_links : list (str * str) :=
  [ (u "https://example.com", u "ok");
    (u "https://example.com/missing", u "x");
    (u "https://bad-tls.example", u "x") ].

(** A network on which no request finds an adapter. *)
Definition no_adapters : Network := fun _ => no_adapter.

(** Three finished probes: a 200, then a 404 and a TLS failure. *)
Definition first_done : (str * Z * str) * (str * str) :=
  ((u "https://example.com", 200%Z, u "✅ OK"),
   (u "https://example.com", u "ok")).

Definition later_done : list ((str * Z * str) * (str * str)) :=
  [ ((u "https://example.com/missing", 404%Z, u "❌ BROKEN (Client Error)"),
     (u "https://example.com/missing", u "x"));
    ((u "https://bad-tls.example", 0%Z, u "🔒 SSL ERROR"),
     (u "https://bad-tls.example", u "x")) ].

(** An export request answered with status [code] and body [text]. *)
Definition serve_document (code : Z) (text : str) : str -> result Document :=
  fun _ => Returned {| doc_response := Response.mk code; doc_text := text |}.

(** An export request that raises [e]. *)
Definition no_document (e : Exc.t) : str -> result Document :=
  fun _ => Raised e.

Definition sample_checker : Checker.t :=
  {| Checker.doc_url := u "https://docs.google.com/document/d/abc/edit";
     Checker.doc_id := u "abc";
     Checker.export_url := export_url_of (u "abc") |}.

(** The anchors of a small document: a link, a fragment link, an empty
    [href], and a link without text. *)
Definition sample_anchors : list Anchor :=
  [ {| href := u "https://example.com"; get_text := u "ok" |};
    {| href := u "#top"; get_text := u "back to top" |};
    {| href := u ""; get_text := u "nowhere" |};
    {| href := u "mailto:someone@example.com"; get_text := u "" |} ].

Definition sample_parser : str -> list Anchor := fun _ => sample_anchors.

(* ===================================================================== *)
(** ** The model on concrete inputs *)
(* ===================================================================== *)

Example u_check_mark : u "✅ OK" = [0x2705; 32; 79; 75]%N.
Proof. reflexivity. Qed.

Example u_warning : u "⚠️  " = [0x26A0; 0xFE0F; 32; 32]%N.
Proof. reflexivity. Qed.

Example u_lock : u "🔒 SSL ERROR" = (0x1F512 :: u " SSL ERROR")%N.
Proof. reflexivity. Qed.

Example of_int_examples :
  of_int 0 = u "0" /\ of_int 404 = u "404" /\ of_int (-17) = u "-17".
Proof. repeat split. Qed.

Example contains_examples :
  contains (u "✅") (u "✅ OK") = true /\
  contains (u "OK") (u "✅ OK") = true /\
  contains (u "✅") (u "❌ CONNECTION FAILED") = false /\
  contains (u "") (u "") = true.
Proof. repeat split. Qed.

Example issubclass_examples :
  Exc.issubclass Exc.ConnectTimeout Exc.Timeout = true /\
  Exc.issubclass Exc.ConnectTimeout Exc.ConnectionError = true /\
  Exc.issubclass Exc.SSLError Exc.ConnectionError = true /\
  Exc.issubclass Exc.InvalidSchema Exc.Exception = true /\
  Exc.issubclass Exc.KeyboardInterrupt Exc.Exception = false.
Proof. repeat split. Qed.

Example check_link_200 :
  check_link (server 200 500) (u "https://example.com")
  = ([HEAD (u "https://example.com")],
     Returned (u "https://example.com", 200%Z, u "✅ OK")).
Proof. reflexivity. Qed.

Example check_link_404_then_404 :
  check_link (server 404 404) (u "https://example.com/missing")
  = ([HEAD (u "https://example.com/missing");
      GET (u "https://example.com/missing")],
     Returned (u "https://example.com/missing", 404%Z,
               u "❌ BROKEN (Client Error)")).
Proof. reflexivity. Qed.

Example check_link_tls :
  snd (check_link (failing (Exc.mk Exc.SSLError (u "certificate verify failed")))
         (u "https://bad-tls.example"))
  = Returned (u "https://bad-tls.example", 0%Z, u "🔒 SSL ERROR").
Proof. reflexivity. Qed.

Example check_link_unknown :
  snd (check_link (server 199 200) (u "a"))
  = Returned (u "a", 199%Z, u "⚠️  UNKNOWN (199)").
Proof. reflexivity. Qed.

Example as_completed_example :
  as_completed [2; 0; 5] [10; 20; 30; 40] = [30; 10; 40; 20].
Proof. reflexivity. Qed.

(* ===================================================================== *)
(** ** The probe: [check_link] *)
(* ===================================================================== *)

Section Probe.

Variable session : Session.
Variable url : str.

Lemma handle_sends_nothing (e : Exc.t) : fst (handle url e) = [].
Proof.
  unfold handle.
  repeat match goal with
         | |- context [if ?b then _ else _] => destruct b
         end; reflexivity.
Qed.

(** When the requests yield a response, the probe returns from the
    [try] block. *)
Lemma check_link_of_response (response : Response.t) :
  snd (request_with_fallback session url) = Returned response ->
  check_link session url
  = (fst (request_with_fallback session url),
     Returned (url, Response.status_code response,
               status_for (Response.status_code response))).
Proof.
  intros Hresp. unfold check_link, try_except, bind.
  destruct (request_with_fallback session url) as [sent [r | e]];
    simpl in Hresp; [ | discriminate ].
  injection Hresp as ->. simpl. now rewrite app_nil_r.
Qed.

(** When a request raises, the [except] clauses decide. *)
Lemma check_link_of_failure (e : Exc.t) :
  snd (request_with_fallback session url) = Raised e ->
  check_link session url
  = (fst (request_with_fallback session url), snd (handle url e)).
Proof.
  intros Hfail. unfold check_link, try_except, bind.
  destruct (request_with_fallback session url) as [sent [r | e']];
    simpl in Hfail; [ discriminate | ].
  injection Hfail as ->. simpl.
  pose proof (handle_sends_nothing e) as Hnil.
  destruct (handle url e) as [sent' r]. simpl in *. subst sent'.
  now rewrite app_nil_r.
Qed.

Lemma request_with_fallback_head_raised (e : Exc.t) :
  head session url = Raised e ->
  request_with_fallback session url = ([HEAD url], Raised e).
Proof.
  intros H. unfold request_with_fallback, bind, session_head.
  now rewrite H.
Qed.

Lemma request_with_fallback_no_fallback (response : Response.t) :
  head session url = Returned response ->
  Response.status_code response <> 405%Z ->
  Response.status_code response <> 404%Z ->
  request_with_fallback session url = ([HEAD url], Returned response).
Proof.
  intros H H405 H404. unfold request_with_fallback, bind, session_head.
  rewrite H.
  apply Z.eqb_neq in H405. apply Z.eqb_neq in H404.
  rewrite H405, H404. reflexivity.
Qed.

Lemma request_with_fallback_fallback (response : Response.t) :
  head session url = Returned response ->
  Response.status_code response = 405%Z
  \/ Response.status_code response = 404%Z ->
  request_with_fallback session url
  = ([HEAD url; GET url], get session url).
Proof.
  intros H Hcode. unfold request_with_fallback, bind, session_head.
  rewrite H.
  assert ((Response.status_code response =? 405)%Z
          || (Response.status_code response =? 404)%Z = true) as ->.
  { apply orb_true_iff. destruct Hcode as [-> | ->]; auto. }
  reflexivity.
Qed.

End Probe.

(** The four status texts of a response are different texts. *)
Lemma response_statuses_distinct (c : Z) :
  u "✅ OK" <> u "❌ BROKEN (Client Error)" /\
  u "✅ OK" <> u "⚠️  SERVER ERROR" /\
  u "❌ BROKEN (Client Error)" <> u "⚠️  SERVER ERROR" /\
  u "✅ OK" <> u "⚠️  UNKNOWN (" ++ of_int c ++ u ")" /\
  u "❌ BROKEN (Client Error)" <> u "⚠️  UNKNOWN (" ++ of_int c ++ u ")" /\
  u "⚠️  SERVER ERROR" <> u "⚠️  UNKNOWN (" ++ of_int c ++ u ")".
Proof.
  repeat split; vm_compute; discriminate.
Qed.

Lemma status_for_cases (c : Z) :
  ((200 <= c < 400)%Z /\ status_for c = u "✅ OK") \/
  ((400 <= c < 500)%Z /\ status_for c = u "❌ BROKEN (Client Error)") \/
  ((500 <= c < 600)%Z /\ status_for c = u "⚠️  SERVER ERROR") \/
  ((c < 200 \/ 600 <= c)%Z
   /\ status_for c = u "⚠️  UNKNOWN (" ++ of_int c ++ u ")").
Proof.
  unfold status_for.
  destruct (200 <=? c)%Z eqn:H200; destruct (c <? 400)%Z eqn:H400;
    destruct (400 <=? c)%Z eqn:H400'; destruct (c <? 500)%Z eqn:H500;
    destruct (500 <=? c)%Z eqn:H500'; destruct (c <? 600)%Z eqn:H600;
    cbn [andb];
    repeat match goal with
           | H : (_ <=? _)%Z = true |- _ => apply Z.leb_le in H
           | H : (_ <=? _)%Z = false |- _ => apply Z.leb_gt in H
           | H : (_ <? _)%Z = true |- _ => apply Z.ltb_lt in H
           | H : (_ <? _)%Z = false |- _ => apply Z.ltb_ge in H
           end;
    try lia;
    first [ left; split; [ lia | reflexivity ]
          | right; left; split; [ lia | reflexivity ]
          | right; right; left; split; [ lia | reflexivity ]
          | right; right; right; split; [ lia | reflexivity ] ].
Qed.

(** C2 (classification totality). Whatever status code the final response
    carries, the probe returns that code with exactly one status text:
    OK for [200,400), client error for [400,500), server error for
    [500,600) and the unknown-status text for every other integer; the
    four texts are pairwise different. *)
Theorem check_link_classification_total :
  forall (session : Session) (url : str) (response : Response.t),
    snd (request_with_fallback session url) = Returned response ->
    let c := Response.status_code response in
    exists status : str,
      snd (check_link session url) = Returned (url, c, status) /\
      (((200 <= c < 400)%Z /\ status = u "✅ OK") \/
       ((400 <= c < 500)%Z /\ status = u "❌ BROKEN (Client Error)") \/
       ((500 <= c < 600)%Z /\ status = u "⚠️  SERVER ERROR") \/
       ((c < 200 \/ 600 <= c)%Z
        /\ status = u "⚠️  UNKNOWN (" ++ of_int c ++ u ")")) /\
      (u "✅ OK" <> u "❌ BROKEN (Client Error)" /\
       u "✅ OK" <> u "⚠️  SERVER ERROR" /\
       u "❌ BROKEN (Client Error)" <> u "⚠️  SERVER ERROR" /\
       u "✅ OK" <> u "⚠️  UNKNOWN (" ++ of_int c ++ u ")" /\
       u "❌ BROKEN (Client Error)"
         <> u "⚠️  UNKNOWN (" ++ of_int c ++ u ")" /\
       u "⚠️  SERVER ERROR" <> u "⚠️  UNKNOWN (" ++ of_int c ++ u ")").
Proof.
  intros session url response Hresp c.
  exists (status_for c). split; [ | split ].
  - now rewrite (check_link_of_response session url response Hresp).
  - apply status_for_cases.
  - apply response_statuses_distinct.
Qed.

Lemma check_link_classification_total_witness :
  snd (request_with_fallback (server 404 503) (u "https://example.com"))
  = Returned (Response.mk 503) /\
  exists status : str,
    snd (check_link (server 404 503) (u "https://example.com"))
    = Returned (u "https://example.com", 503%Z, status) /\
    status = u "⚠️  SERVER ERROR".
Proof.
  split; [ reflexivity | ].
  destruct (check_link_classification_total
              (server 404 503) (u "https://example.com") (Response.mk 503)
              eq_refl)
    as (status & Hret & Hcases & _).
  exists status. split; [ exact Hret | ].
  cbn [Response.status_code] in Hcases.
  destruct Hcases as [[? _] | [[? _] | [[_ ?] | [[? | ?] _]]]];
    solve [ lia | assumption ].
Defined.

(** C3 (fallback trigger). The probe sends a GET exactly when the HEAD
    request returned a response with status 404 or 405; it never sends
    more than one GET; and when the fallback is sent and answered, the
    returned code and status text are those of the GET response. *)
Theorem check_link_fallback_trigger :
  forall (session : Session) (url : str),
    let sent := fst (check_link session url) in
    (existsb is_GET sent = true <->
     exists response : Response.t,
       head session url = Returned response /\
       (Response.status_code response = 404%Z
        \/ Response.status_code response = 405%Z)) /\
    (length (filter is_GET sent) <= 1)%nat /\
    (forall response fallback : Response.t,
        head session url = Returned response ->
        Response.status_code response = 404%Z
        \/ Response.status_code response = 405%Z ->
        get session url = Returned fallback ->
        snd (check_link session url)
        = Returned (url, Response.status_code fallback,
                    status_for (Response.status_code fallback))).
Proof.
  intros session url sent.
  assert (Hsent : sent = fst (request_with_fallback session url)).
  { subst sent.
    destruct (snd (request_with_fallback session url)) as [r | e] eqn:E.
    - now rewrite (check_link_of_response session url r E).
    - now rewrite (check_link_of_failure session url e E). }
  destruct (head session url) as [response | e] eqn:Hhead.
  - destruct (Z.eq_dec (Response.status_code response) 405) as [H405 | H405];
      [ | destruct (Z.eq_dec (Response.status_code response) 404)
            as [H404 | H404] ].
    + rewrite (request_with_fallback_fallback session url response Hhead
                 (or_introl H405)) in Hsent.
      simpl in Hsent. rewrite Hsent. simpl.
      split; [ split; [ intros _; exists response; auto | reflexivity ] | ].
      split; [ lia | ].
      intros response' fallback Heq _ Hget. injection Heq as <-.
      rewrite (check_link_of_response session url fallback); [ reflexivity | ].
      rewrite (request_with_fallback_fallback session url response Hhead
                 (or_introl H405)).
      exact Hget.
    + rewrite (request_with_fallback_fallback session url response Hhead
                 (or_intror H404)) in Hsent.
      simpl in Hsent. rewrite Hsent. simpl.
      split; [ split; [ intros _; exists response; auto | reflexivity ] | ].
      split; [ lia | ].
      intros response' fallback Heq _ Hget. injection Heq as <-.
      rewrite (check_link_of_response session url fallback); [ reflexivity | ].
      rewrite (request_with_fallback_fallback session url response Hhead
                 (or_intror H404)).
      exact Hget.
    + rewrite (request_with_fallback_no_fallback session url response Hhead
                 H405 H404) in Hsent.
      simpl in Hsent. rewrite Hsent. simpl.
      split; [ split; [ discriminate | ] | ].
      * intros (response' & Heq & Hcode). injection Heq as <-. lia.
      * split; [ lia | ].
        intros response' fallback Heq Hcode _. injection Heq as <-. lia.
  - rewrite (request_with_fallback_head_raised session url e Hhead) in Hsent.
    simpl in Hsent. rewrite Hsent. simpl.
    split; [ split; [ discriminate | ] | ].
    + intros (response' & Heq & _). discriminate.
    + split; [ lia | ]. intros response' fallback Heq. discriminate.
Qed.

Lemma check_link_fallback_trigger_witness :
  existsb is_GET (fst (check_link (server 405 200) (u "https://example.com")))
  = true /\
  snd (check_link (server 405 200) (u "https://example.com"))
  = Returned (u "https://example.com", 200%Z, u "✅ OK").
Proof.
  destruct (check_link_fallback_trigger
              (server 405 200) (u "https://example.com"))
    as (Hiff & _ & Hfinal).
  split.
  - apply Hiff. exists (Response.mk 405). split; [ reflexivity | now right ].
  - apply (Hfinal (Response.mk 405) (Response.mk 200));
      [ reflexivity | now right | reflexivity ].
Defined.

(** Decide the class tests of a goal about a known exception class. *)
Ltac eval_issubclass :=
  repeat match goal with
         | |- context [Exc.issubclass ?c ?d] =>
             let b := eval vm_compute in (Exc.issubclass c d) in
             change (Exc.issubclass c d) with b
         end.

(** The [except] clauses on an [Exception]: always an outcome without a
    status code, its text chosen by the first clause that matches. *)
Lemma handle_exception (url : str) (e : Exc.t) :
  Exc.isinstance e Exc.Exception = true ->
  exists status : str,
    handle url e = ret (url, 0%Z, status) /\
    (Exc.isinstance e Exc.Timeout = true -> status = u "⏱️  TIMEOUT") /\
    (Exc.isinstance e Exc.SSLError = true -> status = u "🔒 SSL ERROR") /\
    (Exc.isinstance e Exc.ConnectionError = true ->
     Exc.isinstance e Exc.Timeout = false ->
     Exc.isinstance e Exc.SSLError = false ->
     status = u "❌ CONNECTION FAILED") /\
    (Exc.isinstance e Exc.TooManyRedirects = true ->
     status = u "🔄 TOO MANY REDIRECTS") /\
    (Exc.isinstance e Exc.Timeout = false ->
     Exc.isinstance e Exc.SSLError = false ->
     Exc.isinstance e Exc.ConnectionError = false ->
     Exc.isinstance e Exc.TooManyRedirects = false ->
     status = u "❌ ERROR: " ++ slice_to 50 (Exc.str e)).
Proof.
  destruct e as [c msg]. unfold handle, Exc.isinstance. cbn [Exc.type Exc.str].
  intros Hexc.
  destruct c;
    try (vm_compute in Hexc; discriminate);
    eval_issubclass;
    cbv iota;
    (eexists; split; [ reflexivity | ]);
    repeat split; intros; solve [ discriminate | reflexivity ].
Qed.

(** An exception that is not an [Exception] passes every clause. *)
Lemma handle_propagates (url : str) (e : Exc.t) :
  Exc.isinstance e Exc.Exception = false -> handle url e = raise e.
Proof.
  destruct e as [c msg]. unfold handle, Exc.isinstance. cbn [Exc.type].
  intros Hexc.
  destruct c; try (vm_compute in Hexc; discriminate); reflexivity.
Qed.

(** What passes through [check_link] is not an [Exception]. *)
Lemma check_link_raised (session : Session) (url : str) (e : Exc.t) :
  snd (check_link session url) = Raised e ->
  Exc.isinstance e Exc.Exception = false.
Proof.
  intros Hraised.
  destruct (snd (request_with_fallback session url)) as [r | e'] eqn:E.
  - rewrite (check_link_of_response session url r E) in Hraised.
    discriminate.
  - rewrite (check_link_of_failure session url e' E) in Hraised.
    simpl in Hraised.
    destruct (Exc.isinstance e' Exc.Exception) eqn:Hexc.
    + destruct (handle_exception url e' Hexc) as (status & Hhandle & _).
      rewrite Hhandle in Hraised. discriminate.
    + rewrite (handle_propagates url e' Hexc) in Hraised.
      injection Hraised as <-. exact Hexc.
Qed.

(** C4 (failure capture). A probe whose requests yield a response returns
    an outcome; a probe whose request fails with an [Exception] returns
    an outcome too, with status code 0 and the text of the failure kind:
    timeout, TLS failure, connection failure, redirect limit, or the
    generic error text. What [check_link] lets through is never an
    [Exception]. *)
Theorem check_link_captures_failures :
  forall (session : Session) (url : str),
    (forall response : Response.t,
        snd (request_with_fallback session url) = Returned response ->
        snd (check_link session url)
        = Returned (url, Response.status_code response,
                    status_for (Response.status_code response))) /\
    (forall e : Exc.t,
        snd (request_with_fallback session url) = Raised e ->
        Exc.isinstance e Exc.Exception = true ->
        exists status : str,
          snd (check_link session url) = Returned (url, 0%Z, status) /\
          (Exc.isinstance e Exc.Timeout = true ->
           status = u "⏱️  TIMEOUT") /\
          (Exc.isinstance e Exc.SSLError = true ->
           status = u "🔒 SSL ERROR") /\
          (Exc.isinstance e Exc.ConnectionError = true ->
           Exc.isinstance e Exc.Timeout = false ->
           Exc.isinstance e Exc.SSLError = false ->
           status = u "❌ CONNECTION FAILED") /\
          (Exc.isinstance e Exc.TooManyRedirects = true ->
           status = u "🔄 TOO MANY REDIRECTS") /\
          (Exc.isinstance e Exc.Timeout = false ->
           Exc.isinstance e Exc.SSLError = false ->
           Exc.isinstance e Exc.ConnectionError = false ->
           Exc.isinstance e Exc.TooManyRedirects = false ->
           status = u "❌ ERROR: " ++ slice_to 50 (Exc.str e))) /\
    (forall e : Exc.t,
        snd (check_link session url) = Raised e ->
        Exc.isinstance e Exc.Exception = false).
Proof.
  intros session url. split; [ | split ].
  - intros response Hresp.
    now rewrite (check_link_of_response session url response Hresp).
  - intros e Hfail Hexc.
    destruct (handle_exception url e Hexc) as (status & Hhandle & Htable).
    exists status. split; [ | exact Htable ].
    rewrite (check_link_of_failure session url e Hfail), Hhandle.
    reflexivity.
  - apply check_link_raised.
Qed.

Lemma check_link_captures_failures_witness :
  snd (check_link (failing (Exc.mk Exc.ConnectTimeout (u "timed out")))
         (u "https://slow.example"))
  = Returned (u "https://slow.example", 0%Z, u "⏱️  TIMEOUT").
Proof.
  destruct (check_link_captures_failures
              (failing (Exc.mk Exc.ConnectTimeout (u "timed out")))
              (u "https://slow.example"))
    as (_ & Hfail & _).
  destruct (Hfail (Exc.mk Exc.ConnectTimeout (u "timed out"))
              eq_refl eq_refl)
    as (status & Hret & Htimeout & _).
  rewrite Hret, (Htimeout eq_refl). reflexivity.
Defined.

(** C7 (truncated detail). An [Exception] that none of the four specific
    clauses matches gives the generic error text followed by the first
    50 characters of the exception's message: the whole message when it
    has at most 50 characters, exactly 50 otherwise. *)
Theorem check_link_other_error_truncated :
  forall (session : Session) (url : str) (e : Exc.t),
    snd (request_with_fallback session url) = Raised e ->
    Exc.isinstance e Exc.Timeout = false ->
    Exc.isinstance e Exc.SSLError = false ->
    Exc.isinstance e Exc.ConnectionError = false ->
    Exc.isinstance e Exc.TooManyRedirects = false ->
    Exc.isinstance e Exc.Exception = true ->
    exists detail : str,
      snd (check_link session url)
      = Returned (url, 0%Z, u "❌ ERROR: " ++ detail) /\
      (length detail <= 50)%nat /\
      (exists rest : str, Exc.str e = detail ++ rest) /\
      ((length (Exc.str e) <= 50)%nat -> detail = Exc.str e) /\
      ((50 < length (Exc.str e))%nat -> length detail = 50%nat).
Proof.
  intros session url e Hfail Ht Hs Hc Hr Hexc.
  exists (slice_to 50 (Exc.str e)). split; [ | split; [ | split; [ | split ] ] ].
  - rewrite (check_link_of_failure session url e Hfail).
    unfold handle. rewrite Ht, Hs, Hc, Hr, Hexc. reflexivity.
  - unfold slice_to. rewrite length_firstn. lia.
  - exists (skipn 50 (Exc.str e)). unfold slice_to.
    now rewrite firstn_skipn.
  - intros Hshort. unfold slice_to. now apply firstn_all2.
  - intros Hlong. unfold slice_to. rewrite length_firstn. lia.
Qed.

Lemma check_link_other_error_truncated_witness :
  (50 < length (Exc.str (invalid_schema (u "ftp://unsupported.example"))))%nat
  /\ exists detail : str,
      snd (check_link no_adapter (u "ftp://unsupported.example"))
      = Returned (u "ftp://unsupported.example", 0%Z,
                  u "❌ ERROR: " ++ detail) /\
      length detail = 50%nat.
Proof.
  assert (Hlong :
    (50 < length (Exc.str (invalid_schema (u "ftp://unsupported.example"))))%nat)
    by (vm_compute; lia).
  split; [ exact Hlong | ].
  destruct (check_link_other_error_truncated
              no_adapter (u "ftp://unsupported.example")
              (invalid_schema (u "ftp://unsupported.example"))
              eq_refl eq_refl eq_refl eq_refl eq_refl eq_refl)
    as (detail & Hret & _ & _ & _ & Hfifty).
  exists detail. split; [ exact Hret | exact (Hfifty Hlong) ].
Defined.

Example check_link_unsupported_scheme :
  snd (check_link no_adapter (u "ftp://unsupported.example"))
  = Returned (u "ftp://unsupported.example", 0%Z,
              u "❌ ERROR: No connection adapters were found for 'ftp://unsup").
Proof. reflexivity. Qed.

(** C10 (url preserved). Whenever the probe returns, on the response path
    or through any [except] clause, the first component of the outcome is
    the url it was called with; the only other behaviour is to let an
    exception through that is not an [Exception]. *)
Theorem check_link_url_unchanged :
  forall (session : Session) (url : str),
    match snd (check_link session url) with
    | Returned (check_url, _, _) => check_url = url
    | Raised e => Exc.isinstance e Exc.Exception = false
    end.
Proof.
  intros session url.
  destruct (snd (request_with_fallback session url)) as [r | e] eqn:E.
  - now rewrite (check_link_of_response session url r E).
  - rewrite (check_link_of_failure session url e E). simpl.
    destruct (Exc.isinstance e Exc.Exception) eqn:Hexc.
    + destruct (handle_exception url e Hexc) as (status & Hhandle & _).
      now rewrite Hhandle.
    + now rewrite (handle_propagates url e Hexc).
Qed.

(* ===================================================================== *)
(** ** Link extraction: [extract_links] *)
(* ===================================================================== *)

Section ExtractLinksFacts.

Variable find_all_a_href : str -> list Anchor.

Lemma extract_loop (anchors : list Anchor) (links : list (str * str)) :
  fold_left extract_step anchors links
  = links ++ map (fun anchor => (href anchor, get_text anchor))
               (filter (fun anchor => is_link (href anchor)) anchors).
Proof.
  revert links.
  induction anchors as [ | anchor anchors IH ]; intros links; simpl.
  - now rewrite app_nil_r.
  - rewrite IH. unfold extract_step.
    destruct (is_link (href anchor)); simpl.
    + now rewrite <- app_assoc.
    + reflexivity.
Qed.

(** The loop keeps, in document order, the anchors that pass the test. *)
Lemma extract_links_filter (html : str) :
  extract_links find_all_a_href html
  = map (fun anchor => (href anchor, get_text anchor))
      (filter (fun anchor => is_link (href anchor)) (find_all_a_href html)).
Proof. unfold extract_links. now rewrite extract_loop. Qed.

Lemma is_link_iff (url : str) :
  is_link url = true <-> url <> [] /\ startswith url (u "#") = false.
Proof.
  unfold is_link. rewrite andb_true_iff, negb_true_iff.
  destruct url; simpl; intuition congruence.
Qed.

(** C8 (extracted links). Every pair that [extract_links] returns comes
    from an anchor of the document, and its url is not empty and does
    not start with [#]; an anchor whose [href] is empty or starts with
    [#] contributes no pair; every other anchor does. *)
Theorem extract_links_nonempty_nonfragment :
  forall html : str,
    (forall url text : str,
        In (url, text) (extract_links find_all_a_href html) ->
        url <> [] /\ startswith url (u "#") = false /\
        exists anchor : Anchor,
          In anchor (find_all_a_href html) /\
          href anchor = url /\ get_text anchor = text) /\
    (forall anchor : Anchor,
        In anchor (find_all_a_href html) ->
        href anchor = [] \/ startswith (href anchor) (u "#") = true ->
        ~ In (href anchor, get_text anchor)
            (extract_links find_all_a_href html)) /\
    (forall anchor : Anchor,
        In anchor (find_all_a_href html) ->
        href anchor <> [] ->
        startswith (href anchor) (u "#") = false ->
        In (href anchor, get_text anchor)
          (extract_links find_all_a_href html)).
Proof.
  intros html. rewrite extract_links_filter.
  set (found := map (fun anchor => (href anchor, get_text anchor))
                  (filter (fun anchor => is_link (href anchor))
                     (find_all_a_href html))).
  assert (Hin : forall url text,
             In (url, text) found ->
             url <> [] /\ startswith url (u "#") = false /\
             exists anchor, In anchor (find_all_a_href html) /\
                            href anchor = url /\ get_text anchor = text).
  { intros url text Hin. apply in_map_iff in Hin.
    destruct Hin as (anchor & Heq & Hfilter).
    apply filter_In in Hfilter. destruct Hfilter as [Hanchor Hkept].
    apply is_link_iff in Hkept. destruct Hkept as [Hne Hfrag].
    injection Heq as <- <-.
    repeat split; try assumption.
    exists anchor. auto. }
  split; [ exact Hin | split ].
  - intros anchor _ Hbad Hmem.
    destruct (Hin _ _ Hmem) as (Hne & Hfrag & _).
    destruct Hbad as [Hempty | Hsharp]; congruence.
  - intros anchor Hanchor Hne Hfrag.
    apply in_map_iff. exists anchor. split; [ reflexivity | ].
    apply filter_In. split; [ exact Hanchor | ].
    apply is_link_iff. auto.
Qed.

End ExtractLinksFacts.

Example extract_links_sample :
  extract_links sample_parser (u "<html>...</html>")
  = [ (u "https://example.com", u "ok");
      (u "mailto:someone@example.com", u "") ].
Proof. vm_compute. reflexivity. Qed.

Lemma extract_links_nonempty_nonfragment_witness :
  In (u "https://example.com", u "ok")
    (extract_links sample_parser (u "<html>...</html>")) /\
  u "https://example.com" <> [] /\
  startswith (u "https://example.com") (u "#") = false /\
  ~ In (u "#top", u "back to top")
      (extract_links sample_parser (u "<html>...</html>")).
Proof.
  destruct (extract_links_nonempty_nonfragment
              sample_parser (u "<html>...</html>"))
    as (Hvalid & Hskip & _).
  assert (Hmem : In (u "https://example.com", u "ok")
                   (extract_links sample_parser (u "<html>...</html>")))
    by (vm_compute; left; reflexivity).
  split; [ exact Hmem | ].
  destruct (Hvalid _ _ Hmem) as (Hne & Hfrag & _).
  split; [ exact Hne | split; [ exact Hfrag | ] ].
  apply (Hskip {| href := u "#top"; get_text := u "back to top" |}).
  - right; left; reflexivity.
  - right; reflexivity.
Defined.

(* ===================================================================== *)
(** ** The thread pool: [as_completed] *)
(* ===================================================================== *)

Section Completion.

Context {A : Type}.

Lemma remove_nth_perm (l : list A) (k : nat) (d : A) :
  (k < length l)%nat -> Permutation l (nth k l d :: remove_nth k l).
Proof.
  revert k. induction l as [ | x l IH ]; intros k Hk; simpl in Hk.
  - lia.
  - destruct k as [ | k ]; simpl.
    + reflexivity.
    + rewrite perm_swap. apply perm_skip. apply IH. lia.
Qed.

Lemma as_completed_upto_perm (n : nat) :
  forall (sched : list nat) (pending : list A),
    length pending = n ->
    Permutation pending (as_completed_upto n sched pending).
Proof.
  induction n as [ | n IH ]; intros sched pending Hlen.
  - destruct pending; [ constructor | discriminate ].
  - destruct pending as [ | first rest ]; [ discriminate | ].
    cbn [as_completed_upto].
    remember (first :: rest) as pending eqn:Hpending.
    remember (Nat.modulo (hd 0%nat sched) (length pending)) as k eqn:Hkdef.
    assert (Hk : (k < length pending)%nat).
    { subst k. apply Nat.mod_upper_bound. subst pending. discriminate. }
    pose proof (remove_nth_perm pending k first Hk) as Hperm.
    rewrite Hperm at 1. apply perm_skip. apply IH.
    apply Permutation_length in Hperm. cbn [length] in Hperm. lia.
Qed.

(** Every future is handed over, once. *)
Lemma as_completed_perm (sched : list nat) (fs : list A) :
  Permutation fs (as_completed sched fs).
Proof. now apply as_completed_upto_perm. Qed.

Lemma nth_remove_of_in (x : A) (l : list A) (d : A) :
  In x l ->
  exists k : nat, (k < length l)%nat /\ nth k l d = x.
Proof.
  intros Hin. destruct (In_nth l x d Hin) as (k & Hk & Hnth). eauto.
Qed.

(** Every order of completion is the order of some schedule. *)
Lemma as_completed_any_order (fs order : list A) :
  Permutation fs order ->
  exists sched : list nat, as_completed sched fs = order.
Proof.
  revert fs. induction order as [ | y order IH ]; intros fs Hperm.
  - apply Permutation_sym, Permutation_nil in Hperm. subst fs.
    exists []. reflexivity.
  - assert (Hin : In y fs).
    { apply (Permutation_in y (Permutation_sym Hperm)). now left. }
    destruct fs as [ | first rest ]; [ contradiction | ].
    destruct (nth_remove_of_in y (first :: rest) first Hin)
      as (k & Hk & Hnth).
    pose proof (remove_nth_perm (first :: rest) k first Hk) as Hsplit.
    rewrite Hnth in Hsplit.
    assert (Hrest : Permutation (remove_nth k (first :: rest)) order).
    { apply Permutation_cons_inv with (a := y).
      now rewrite <- Hsplit. }
    destruct (IH _ Hrest) as (sched & Hsched).
    exists (k :: sched).
    unfold as_completed. cbn [length as_completed_upto hd tl].
    change (S (length rest)) with (length (first :: rest)).
    rewrite (Nat.mod_small k _ Hk), Hnth. f_equal.
    unfold as_completed in Hsched.
    apply Permutation_length in Hsplit. simpl in Hsplit.
    assert (Hlen : length (remove_nth k (first :: rest)) = length rest)
      by lia.
    rewrite <- Hlen. exact Hsched.
Qed.

End Completion.

(* ===================================================================== *)
(** ** The aggregation loop *)
(* ===================================================================== *)

Lemma categorize_bucket (results : Results) (url text : str)
  (status_code : Z) (status : str) :
  categorize results url text status_code status
  = let result := make_result url text status_code status in
    match bucket_of status_code status with
    | Working =>
        {| working := working results ++ [result];
           broken := broken results; errors := errors results |}
    | Broken =>
        {| working := working results;
           broken := broken results ++ [result]; errors := errors results |}
    | Errors =>
        {| working := working results; broken := broken results;
           errors := errors results ++ [result] |}
    end.
Proof.
  unfold categorize, bucket_of.
  destruct (marked_ok status); [ reflexivity | ].
  destruct (in_error_range status_code); reflexivity.
Qed.

(** One step of the loop adds one entry to the report. *)
Lemma categorize_entries (results : Results) (url text : str)
  (status_code : Z) (status : str) :
  Permutation
    (entries (categorize results url text status_code status))
    (entries results ++ [make_result url text status_code status]).
Proof.
  rewrite categorize_bucket. unfold entries.
  destruct (bucket_of status_code status); cbn [working broken errors].
  - rewrite <- app_assoc. cbn [app].
    rewrite <- Permutation_middle. apply Permutation_cons_append.
  - rewrite <- app_assoc. cbn [app].
    rewrite (app_assoc (working results)).
    rewrite <- Permutation_middle. rewrite <- app_assoc.
    apply Permutation_cons_append.
  - now rewrite !app_assoc.
Qed.

(** When the loop ends normally, the report holds what it held before
    and one entry for each finished future. *)
Lemma collect_links (completed : list (Future * (str * str))) :
  forall (results final : Results),
    collect results completed = Returned final ->
    Permutation (map link_of (entries final))
      (map link_of (entries results) ++ map snd completed).
Proof.
  induction completed as [ | [future [url text]] rest IH ];
    intros results final Hcollect; simpl in Hcollect.
  - injection Hcollect as <-. now rewrite app_nil_r.
  - destruct future as [[[check_url status_code] status] | e];
      [ | discriminate ].
    rewrite (IH _ _ Hcollect).
    rewrite (Permutation_map link_of
               (categorize_entries results url text status_code status)).
    rewrite map_app, <- app_assoc. reflexivity.
Qed.

(** The loop stops early only on a future whose call raised. *)
Lemma collect_raised (completed : list (Future * (str * str))) :
  forall (results : Results) (e : Exc.t),
    collect results completed = Raised e ->
    exists link : str * str, In (Raised e, link) completed.
Proof.
  induction completed as [ | [future [url text]] rest IH ];
    intros results e Hcollect; simpl in Hcollect.
  - discriminate.
  - destruct future as [[[check_url status_code] status] | e'].
    + destruct (IH _ _ Hcollect) as (link & Hin).
      exists link. now right.
    + injection Hcollect as ->. exists (url, text). now left.
Qed.

Lemma submit_all_links (net : Network) (links : list (str * str)) :
  forall i : nat, map snd (submit_all net i links) = links.
Proof.
  induction links as [ | [url text] rest IH ]; intros i; simpl.
  - reflexivity.
  - now rewrite IH.
Qed.

Lemma submit_all_futures (net : Network) (links : list (str * str)) :
  forall (i : nat) (future : Future) (link : str * str),
    In (future, link) (submit_all net i links) ->
    exists j : nat, future = snd (check_link (net j) (fst link)).
Proof.
  induction links as [ | [url text] rest IH ]; intros i future link Hin;
    simpl in Hin.
  - contradiction.
  - destruct Hin as [Heq | Hin].
    + injection Heq as <- <-. exists i. reflexivity.
    + apply (IH (S i)). exact Hin.
Qed.

(** C1 (completeness). For a pool with at least one worker and any order
    of completion, the report that [check_all_links] returns holds the
    input links, each occurrence once, spread over the three lists, so
    that the three lengths add up to the number of links. The call fails
    to return a report only when a probe let through an exception that
    is not an [Exception]. *)
Theorem check_all_links_partition :
  forall (net : Network) (links : list (str * str)) (max_workers : Z)
         (sched : list nat),
    (0 < max_workers)%Z ->
    match check_all_links net links max_workers sched with
    | Returned results =>
        Permutation
          (map link_of
             (working results ++ broken results ++ errors results))
          links /\
        (length (working results) + length (broken results)
         + length (errors results) = length links)%nat
    | Raised e => Exc.isinstance e Exc.Exception = false
    end.
Proof.
  intros net links max_workers sched Hworkers.
  unfold check_all_links.
  destruct (Z.leb_spec max_workers 0) as [Hle | _]; [ lia | ].
  destruct (collect empty_results (as_completed sched (submit_all net 0 links)))
    as [results | e] eqn:Hcollect.
  - assert (Hperm : Permutation (map link_of (entries results)) links).
    { rewrite (collect_links _ _ _ Hcollect). cbn [entries empty_results
        working broken errors app map].
      rewrite <- (Permutation_map snd
                    (as_completed_perm sched (submit_all net 0 links))).
      now rewrite submit_all_links. }
    split; [ exact Hperm | ].
    apply Permutation_length in Hperm.
    unfold entries in Hperm. rewrite length_map, !length_app in Hperm. lia.
  - destruct (collect_raised _ _ _ Hcollect) as (link & Hin).
    apply (Permutation_in _
             (Permutation_sym
                (as_completed_perm sched (submit_all net 0 links)))) in Hin.
    destruct (submit_all_futures net links 0 _ _ Hin) as (j & Hfuture).
    symmetry in Hfuture. exact (check_link_raised _ _ _ Hfuture).
Qed.

Lemma check_all_links_partition_witness :
  exists results : Results,
    check_all_links three_hosts three_links default_max_workers [2; 0]
    = Returned results /\
    Permutation
      (map link_of (working results ++ broken results ++ errors results))
      three_links /\
    (length (working results) + length (broken results)
     + length (errors results) = 3)%nat.
Proof.
  pose proof (check_all_links_partition
                three_hosts three_links default_max_workers [2; 0] eq_refl)
    as Hpartition.
  destruct (check_all_links three_hosts three_links default_max_workers
              [2; 0]) as [results | e] eqn:Hrun.
  - exists results. split; [ reflexivity | exact Hpartition ].
  - vm_compute in Hrun. discriminate.
Defined.

(** C9 (empty input). With no links, [check_all_links] returns the report
    whose three lists are empty, so that it counts no link at all. *)
Theorem check_all_links_empty :
  forall (net : Network) (max_workers : Z) (sched : list nat),
    (0 < max_workers)%Z ->
    exists results : Results,
      check_all_links net [] max_workers sched = Returned results /\
      working results = [] /\ broken results = [] /\ errors results = [] /\
      (length (working results) + length (broken results)
       + length (errors results) = 0)%nat.
Proof.
  intros net max_workers sched Hworkers. unfold check_all_links.
  destruct (Z.leb_spec max_workers 0) as [Hle | _]; [ lia | ].
  exists empty_results. repeat split.
Qed.

Lemma check_all_links_empty_witness :
  exists results : Results,
    check_all_links three_hosts [] default_max_workers [] = Returned results /\
    working results = [] /\ broken results = [] /\ errors results = [] /\
    (length (working results) + length (broken results)
     + length (errors results) = 0)%nat.
Proof. apply check_all_links_empty. reflexivity. Defined.

Lemma filter_perm {A : Type} (f : A -> bool) (l l' : list A) :
  Permutation l l' -> Permutation (filter f l) (filter f l').
Proof.
  induction 1 as [ | x l l' _ IH | x y l | l l' l'' _ IH1 _ IH2 ]; simpl.
  - constructor.
  - destruct (f x); [ now apply perm_skip | exact IH ].
  - destruct (f x), (f y); try reflexivity. apply perm_swap.
  - now transitivity (filter f l').
Qed.

(** Over futures that all returned, the loop ends normally and each list
    receives, in order of arrival, the entries of the probes it selects. *)
Lemma collect_finished (done : list ((str * Z * str) * (str * str))) :
  forall results : Results,
    collect results (map finished done)
    = Returned
        {| working := working results ++ map entry_for (select Working done);
           broken := broken results ++ map entry_for (select Broken done);
           errors := errors results ++ map entry_for (select Errors done) |}.
Proof.
  induction done as [ | [[[check_url status_code] status] [url text]] rest IH ];
    intros results.
  - simpl. rewrite !app_nil_r. now destruct results.
  - cbn [map finished fst snd collect]. rewrite IH, categorize_bucket.
    unfold select. cbn [filter fst snd].
    destruct (bucket_of status_code status);
      cbn [bucket_eqb working broken errors map entry_for];
      rewrite <- ?app_assoc; reflexivity.
Qed.

(** C6 (order independence). Folding the same finished probes through the
    loop in two different orders ends normally both times, and each of
    the three lists of one report is a rearrangement of the same list of
    the other. *)
Theorem collect_order_independent :
  forall done done' : list ((str * Z * str) * (str * str)),
    Permutation done done' ->
    exists results results' : Results,
      collect empty_results (map finished done) = Returned results /\
      collect empty_results (map finished done') = Returned results' /\
      Permutation (working results) (working results') /\
      Permutation (broken results) (broken results') /\
      Permutation (errors results) (errors results').
Proof.
  intros done done' Hperm.
  do 2 eexists. rewrite !collect_finished.
  split; [ reflexivity | split; [ reflexivity | ] ].
  cbn [working broken errors empty_results app].
  repeat split; apply Permutation_map; unfold select; now apply filter_perm.
Qed.

Lemma collect_order_independent_witness :
  exists results results' : Results,
    collect empty_results (map finished (first_done :: later_done))
    = Returned results /\
    collect empty_results (map finished (later_done ++ [first_done]))
    = Returned results' /\
    Permutation (working results) (working results') /\
    Permutation (broken results) (broken results') /\
    Permutation (errors results) (errors results').
Proof.
  apply collect_order_independent.
  apply Permutation_cons_append.
Defined.

Example collect_three_done :
  collect empty_results (map finished (later_done ++ [first_done]))
  = Returned
      {| working := [entry_for first_done];
         broken := [make_result (u "https://example.com/missing") (u "x")
                      404%Z (u "❌ BROKEN (Client Error)")];
         errors := [make_result (u "https://bad-tls.example") (u "x")
                      0%Z (u "🔒 SSL ERROR")] |}.
Proof. reflexivity. Qed.

(** *** Where the check mark can occur *)

Lemma contains_single (mark : N) (s : str) :
  contains [mark] s = existsb (N.eqb mark) s.
Proof.
  induction s as [ | c s IH ]; simpl.
  - reflexivity.
  - rewrite IH. destruct s; now rewrite andb_true_r.
Qed.

Lemma marked_ok_exists (s : str) :
  marked_ok s = existsb (N.eqb 0x2705) s.
Proof. unfold marked_ok. apply (contains_single 0x2705%N). Qed.

Lemma marked_ok_app (s t : str) :
  marked_ok (s ++ t) = marked_ok s || marked_ok t.
Proof. rewrite !marked_ok_exists. apply existsb_app. Qed.

Lemma utf8_decode_ascii (bs : list N) :
  Forall (fun b => (b <? 0x80)%N = true) bs -> utf8_decode bs = bs.
Proof.
  induction 1 as [ | b bs Hb _ IH ]; simpl.
  - reflexivity.
  - now rewrite Hb, IH.
Qed.

Lemma digits_ascii (d : Decimal.uint) :
  Forall (fun b => (b <? 0x80)%N = true)
    (map N_of_ascii (list_ascii_of_string (NilEmpty.string_of_uint d))).
Proof.
  induction d; simpl; constructor; solve [ reflexivity | assumption ].
Qed.

Lemma string_of_uint_ascii (d : Decimal.uint) :
  Forall (fun b => (b <? 0x80)%N = true)
    (map N_of_ascii (list_ascii_of_string (NilZero.string_of_uint d))).
Proof.
  destruct d; try apply digits_ascii.
  simpl. constructor; [ reflexivity | constructor ].
Qed.

Lemma string_of_int_ascii (d : Decimal.int) :
  Forall (fun b => (b <? 0x80)%N = true)
    (map N_of_ascii (list_ascii_of_string (NilZero.string_of_int d))).
Proof.
  destruct d as [d | d]; simpl.
  - apply string_of_uint_ascii.
  - constructor; [ reflexivity | apply string_of_uint_ascii ].
Qed.

(** The digits of a status code never carry the check mark. *)
Lemma marked_ok_of_int (i : Z) : marked_ok (of_int i) = false.
Proof.
  unfold of_int, u.
  rewrite (utf8_decode_ascii _ (string_of_int_ascii (Z.to_int i))).
  rewrite marked_ok_exists.
  pose proof (string_of_int_ascii (Z.to_int i)) as Hascii.
  induction Hascii as [ | b bs Hb _ IH ]; cbn [existsb].
  - reflexivity.
  - rewrite IH, orb_false_r.
    apply N.ltb_lt in Hb. apply N.eqb_neq. lia.
Qed.

Lemma marked_ok_status_for (c : Z) :
  marked_ok (status_for c) = true -> status_for c = u "✅ OK".
Proof.
  destruct (status_for_cases c)
    as [[_ ->] | [[_ ->] | [[_ ->] | [_ ->]]]]; intros Hmark.
  - reflexivity.
  - vm_compute in Hmark. discriminate.
  - vm_compute in Hmark. discriminate.
  - rewrite !marked_ok_app, marked_ok_of_int in Hmark.
    vm_compute in Hmark. discriminate.
Qed.

(** A branch that returns a fixed status text without the mark. *)
Ltac fixed_status Hret Hmark :=
  let Hstatus := fresh "Hstatus" in
  cbn [snd] in Hret; injection Hret as _ _ Hstatus;
  rewrite <- Hstatus in Hmark; vm_compute in Hmark; discriminate Hmark.

(** A probe's status text carries the check mark only when it is the OK
    status, or when it is the generic error text of an exception whose
    message has the mark among its first 50 characters. *)
Lemma check_link_marked_ok (session : Session) (url check_url : str)
  (status_code : Z) (status : str) :
  snd (check_link session url) = Returned (check_url, status_code, status) ->
  marked_ok status = true ->
  status = u "✅ OK" \/
  (status_code = 0%Z /\
   exists e : Exc.t,
     snd (request_with_fallback session url) = Raised e /\
     status = u "❌ ERROR: " ++ slice_to 50 (Exc.str e) /\
     marked_ok (slice_to 50 (Exc.str e)) = true).
Proof.
  intros Hret Hmark.
  destruct (snd (request_with_fallback session url)) as [r | e] eqn:E.
  - rewrite (check_link_of_response session url r E) in Hret.
    injection Hret as _ _ <-. left. now apply marked_ok_status_for.
  - rewrite (check_link_of_failure session url e E) in Hret.
    unfold handle, ret, raise in Hret. right.
    destruct (Exc.isinstance e Exc.Timeout);
      [ fixed_status Hret Hmark | ].
    destruct (Exc.isinstance e Exc.SSLError);
      [ fixed_status Hret Hmark | ].
    destruct (Exc.isinstance e Exc.ConnectionError);
      [ fixed_status Hret Hmark | ].
    destruct (Exc.isinstance e Exc.TooManyRedirects);
      [ fixed_status Hret Hmark | ].
    destruct (Exc.isinstance e Exc.Exception);
      cbn [snd] in Hret; [ | discriminate Hret ].
    remember (u "❌ ERROR: " ++ slice_to 50 (Exc.str e)) as text eqn:Htext.
    injection Hret as _ Hcode Hstatus. subst status_code status text.
    split; [ reflexivity | ].
    exists e. split; [ reflexivity | split; [ reflexivity | ] ].
    rewrite marked_ok_app in Hmark.
    apply orb_true_iff in Hmark. destruct Hmark as [Hmark | Hmark].
    + vm_compute in Hmark. discriminate Hmark.
    + exact Hmark.
Qed.

(** Which list receives a probe's entry: the rule of the aggregator on
    every outcome whose status is OK or free of the mark, and [working]
    for the generic error text that carries the mark. *)
Lemma bucket_of_probe_outcome (session : Session) (url check_url : str)
  (status_code : Z) (status : str) :
  snd (check_link session url) = Returned (check_url, status_code, status) ->
  (status = u "✅ OK" /\ bucket_of status_code status = Working) \/
  (status <> u "✅ OK" /\ in_error_range status_code = true
   /\ bucket_of status_code status = Broken) \/
  (status <> u "✅ OK" /\ in_error_range status_code = false
   /\ marked_ok status = false
   /\ bucket_of status_code status = Errors) \/
  (status <> u "✅ OK" /\ in_error_range status_code = false
   /\ marked_ok status = true
   /\ bucket_of status_code status = Working).
Proof.
  intros Hret. unfold bucket_of.
  destruct (marked_ok status) eqn:Hmark.
  - destruct (check_link_marked_ok _ _ _ _ _ Hret Hmark)
      as [-> | (-> & e & _ & -> & _)].
    + left. split; reflexivity.
    + right; right; right.
      repeat split. vm_compute. discriminate.
  - assert (Hnot : status <> u "✅ OK").
    { intros ->. vm_compute in Hmark. discriminate. }
    destruct (in_error_range status_code) eqn:Hrange.
    + right; left. auto.
    + right; right; left. auto.
Qed.

(** C5 (bucket rule), at a link whose scheme has no adapter and whose
    url carries the check mark: the probe fails with the generic error
    text, status code 0, and the loop files the entry under [working],
    although its status is not the OK status. *)
Theorem check_all_links_files_marked_error_as_working :
  snd (check_link no_adapter (u "✅://x"))
  = Returned (u "✅://x", 0%Z,
              u "❌ ERROR: No connection adapters were found for '✅://x'")
  /\ u "❌ ERROR: No connection adapters were found for '✅://x'" <> u "✅ OK"
  /\ in_error_range 0 = false
  /\ check_all_links no_adapters [(u "✅://x", u "x")] default_max_workers []
     = Returned
         {| working :=
              [make_result (u "✅://x") (u "x") 0%Z
                 (u "❌ ERROR: No connection adapters were found for '✅://x'")];
            broken := [];
            errors := [] |}.
Proof.
  repeat split. vm_compute. discriminate.
Qed.

(* ===================================================================== *)
(** ** The document id: [extract_doc_id] and [__init__] *)
(* ===================================================================== *)

Lemma startswith_split (s prefix : str) :
  startswith s prefix = true -> s = prefix ++ skipn (length prefix) s.
Proof.
  revert s. induction prefix as [ | p prefix IH ]; intros s H.
  - reflexivity.
  - destruct s as [ | c s ]; [ discriminate | ].
    cbn [startswith] in H. apply andb_true_iff in H. destruct H as [Hc Hs].
    apply N.eqb_eq in Hc. subst c. cbn [length skipn app].
    now rewrite <- (IH s Hs).
Qed.

Lemma startswith_app (prefix rest : str) :
  startswith (prefix ++ rest) prefix = true.
Proof.
  induction prefix as [ | p prefix IH ]; [ now destruct rest | ].
  cbn [app startswith]. now rewrite N.eqb_refl, IH.
Qed.

(** What the greedy group takes: a run of id characters that the next
    character, if any, does not continue. *)
Lemma take_while_split (p : N -> bool) (s : str) :
  Forall (fun c => p c = true) (take_while p s) /\
  exists rest : str,
    s = take_while p s ++ rest /\
    match rest with
    | [] => True
    | c :: _ => p c = false
    end.
Proof.
  induction s as [ | c s (Hall & rest & Hsplit & Hstop) ]; cbn [take_while].
  - split; [ constructor | ]. exists []. now split.
  - destruct (p c) eqn:Hc.
    + split; [ now constructor | ].
      exists rest. cbn [app]. split; [ now rewrite <- Hsplit | exact Hstop ].
    + split; [ constructor | ]. exists (c :: s). now split.
Qed.

Lemma take_while_all (p : N -> bool) (id rest : str) :
  Forall (fun c => p c = true) id ->
  match rest with
  | [] => True
  | c :: _ => p c = false
  end ->
  take_while p (id ++ rest) = id.
Proof.
  intros Hall Hstop. induction Hall as [ | c id Hc _ IH ]; cbn [app take_while].
  - destruct rest as [ | c rest ]; cbn [take_while];
      [ reflexivity | now rewrite Hstop ].
  - now rewrite Hc, IH.
Qed.

Lemma match_doc_id_at_some (s id : str) :
  match_doc_id_at s = Some id ->
  id <> [] /\ Forall (fun c => is_id_char c = true) id /\
  exists rest : str,
    s = u "/d/" ++ id ++ rest /\
    match rest with
    | [] => True
    | c :: _ => is_id_char c = false
    end.
Proof.
  unfold match_doc_id_at.
  destruct (startswith s (u "/d/")) eqn:Hstart; [ | discriminate ].
  apply startswith_split in Hstart.
  change (length (u "/d/")) with 3%nat in Hstart.
  destruct (take_while_split is_id_char (skipn 3 s))
    as (Hall & rest & Hsplit & Hstop).
  destruct (take_while is_id_char (skipn 3 s)) as [ | c run ] eqn:Hrun;
    [ discriminate | ].
  intros H. injection H as <-.
  split; [ discriminate | ]. split; [ exact Hall | ].
  exists rest. split; [ | exact Hstop ].
  now rewrite <- Hsplit.
Qed.

Lemma match_doc_id_at_hit (id rest : str) :
  id <> [] ->
  Forall (fun c => is_id_char c = true) id ->
  match rest with
  | [] => True
  | c :: _ => is_id_char c = false
  end ->
  match_doc_id_at (u "/d/" ++ id ++ rest) = Some id.
Proof.
  intros Hne Hall Hstop. unfold match_doc_id_at.
  rewrite startswith_app.
  change (skipn 3 (u "/d/" ++ id ++ rest)) with (id ++ rest).
  rewrite (take_while_all is_id_char id rest Hall Hstop).
  destruct id; [ contradiction | reflexivity ].
Qed.

Lemma search_doc_id_some (url id : str) :
  search_doc_id url = Some id ->
  exists before rest : str,
    url = before ++ u "/d/" ++ id ++ rest /\
    id <> [] /\ Forall (fun c => is_id_char c = true) id /\
    match rest with
    | [] => True
    | c :: _ => is_id_char c = false
    end.
Proof.
  induction url as [ | c url IH ]; cbn [search_doc_id].
  - destruct (match_doc_id_at []) as [found | ] eqn:Hat; [ | discriminate ].
    intros H. injection H as ->.
    destruct (match_doc_id_at_some _ _ Hat) as (Hne & Hall & rest & Heq & Hstop).
    exists [], rest. auto.
  - destruct (match_doc_id_at (c :: url)) as [found | ] eqn:Hat.
    + intros H. injection H as ->.
      destruct (match_doc_id_at_some _ _ Hat)
        as (Hne & Hall & rest & Heq & Hstop).
      exists [], rest. auto.
    + intros H. destruct (IH H) as (before & rest & Heq & Hrest).
      exists (c :: before), rest. split; [ | exact Hrest ].
      cbn [app]. now rewrite Heq.
Qed.

Lemma search_doc_id_none_suffix (before s : str) :
  search_doc_id (before ++ s) = None -> search_doc_id s = None.
Proof.
  induction before as [ | c before IH ]; [ trivial | ].
  cbn [app search_doc_id].
  destruct (match_doc_id_at (c :: before ++ s)); [ discriminate | exact IH ].
Qed.

Lemma search_doc_id_unfold (s : str) :
  search_doc_id s
  = match match_doc_id_at s with
    | Some id => Some id
    | None => match s with
              | [] => None
              | _ :: rest => search_doc_id rest
              end
    end.
Proof. destruct s; reflexivity. Qed.

(** X1. An id that [extract_doc_id] returns is not empty, is made of the
    characters of the class only, and stands in the url right after a
    [/d/], up to the end of the url or a character outside the class. *)
Theorem extract_doc_id_sound :
  forall url id : str,
    extract_doc_id url = Returned id ->
    id <> [] /\
    Forall (fun c => is_id_char c = true) id /\
    exists before rest : str,
      url = before ++ u "/d/" ++ id ++ rest /\
      match rest with
      | [] => True
      | c :: _ => is_id_char c = false
      end.
Proof.
  intros url id. unfold extract_doc_id.
  destruct (search_doc_id url) as [found | ] eqn:Hsearch; [ | discriminate ].
  intros H. injection H as ->.
  destruct (search_doc_id_some _ _ Hsearch)
    as (before & rest & Heq & Hne & Hall & Hstop).
  split; [ exact Hne | ]. split; [ exact Hall | ].
  exists before, rest. auto.
Qed.

(** X2. [extract_doc_id] raises its [ValueError] exactly for the urls in
    which no [/d/] is followed by a character of the class. *)
Theorem extract_doc_id_invalid :
  forall url : str,
    extract_doc_id url = Raised invalid_url_error <->
    (forall (before rest : str) (c : N),
        url = before ++ u "/d/" ++ c :: rest -> is_id_char c = false).
Proof.
  intros url. unfold extract_doc_id. split.
  - destruct (search_doc_id url) as [found | ] eqn:Hsearch; [ discriminate | ].
    intros _ before rest c Heq. subst url.
    apply search_doc_id_none_suffix in Hsearch.
    rewrite search_doc_id_unfold in Hsearch.
    destruct (is_id_char c) eqn:Hc; [ | reflexivity ].
    destruct (take_while_split is_id_char rest) as (Hall & stop & Hsplit & Hstop).
    rewrite Hsplit in Hsearch.
    change (u "/d/" ++ c :: take_while is_id_char rest ++ stop)
      with (u "/d/" ++ (c :: take_while is_id_char rest) ++ stop) in Hsearch.
    rewrite match_doc_id_at_hit in Hsearch;
      [ discriminate | discriminate | now constructor | exact Hstop ].
  - intros Hnone.
    destruct (search_doc_id url) as [found | ] eqn:Hsearch; [ | reflexivity ].
    destruct (search_doc_id_some _ _ Hsearch)
      as (before & rest & Heq & Hne & Hall & _).
    destruct found as [ | c found ]; [ contradiction | ].
    inversion Hall as [ | ? ? Hc _ ]; subst.
    rewrite (Hnone before (found ++ rest) c eq_refl) in Hc. discriminate.
Qed.

Lemma extract_doc_id_sound_witness :
  extract_doc_id (u "https://docs.google.com/document/d/1hWo-E6_U/edit?tab=t.0")
  = Returned (u "1hWo-E6_U") /\
  u "1hWo-E6_U" <> [] /\
  Forall (fun c => is_id_char c = true) (u "1hWo-E6_U").
Proof.
  assert (Hrun :
    extract_doc_id
      (u "https://docs.google.com/document/d/1hWo-E6_U/edit?tab=t.0")
    = Returned (u "1hWo-E6_U")) by (vm_compute; reflexivity).
  split; [ exact Hrun | ].
  destruct (extract_doc_id_sound _ _ Hrun) as (Hne & Hall & _).
  split; [ exact Hne | exact Hall ].
Defined.

Lemma extract_doc_id_invalid_witness :
  extract_doc_id (u "https://example.com/d/?id=1")
  = Raised invalid_url_error /\
  is_id_char 0x3F = false.
Proof.
  assert (Hrun : extract_doc_id (u "https://example.com/d/?id=1")
                 = Raised invalid_url_error) by (vm_compute; reflexivity).
  split; [ exact Hrun | ].
  apply (proj1 (extract_doc_id_invalid (u "https://example.com/d/?id=1"))
           Hrun (u "https://example.com") (u "id=1") 0x3F%N).
  vm_compute. reflexivity.
Defined.

Lemma search_skip_char (c : N) (s : str) :
  c <> 0x2F%N -> search_doc_id (c :: s) = search_doc_id s.
Proof.
  intros Hc. rewrite search_doc_id_unfold. unfold match_doc_id_at.
  change (u "/d/") with [0x2F; 0x64; 0x2F]%N. cbn [startswith].
  apply not_eq_sym in Hc. apply N.eqb_neq in Hc. now rewrite Hc.
Qed.

Lemma search_skip_slash (c : N) (s : str) :
  c <> 0x64%N -> search_doc_id (0x2F%N :: c :: s) = search_doc_id (c :: s).
Proof.
  intros Hc. rewrite search_doc_id_unfold. unfold match_doc_id_at.
  change (u "/d/") with [0x2F; 0x64; 0x2F]%N. cbn [startswith].
  apply not_eq_sym in Hc. apply N.eqb_neq in Hc.
  now rewrite Hc, andb_false_r.
Qed.

Lemma search_skip_slash_d (c : N) (s : str) :
  c <> 0x2F%N ->
  search_doc_id (0x2F%N :: 0x64%N :: c :: s) = search_doc_id (0x64%N :: c :: s).
Proof.
  intros Hc. rewrite search_doc_id_unfold. unfold match_doc_id_at.
  change (u "/d/") with [0x2F; 0x64; 0x2F]%N. cbn [startswith].
  apply not_eq_sym in Hc. apply N.eqb_neq in Hc.
  now rewrite Hc, !andb_false_r.
Qed.

(** The search in an export address finds the id that it was built from. *)
Lemma search_doc_id_export (id : str) :
  id <> [] ->
  Forall (fun c => is_id_char c = true) id ->
  search_doc_id (export_url_of id) = Some id.
Proof.
  intros Hne Hall. unfold export_url_of.
  let front := eval vm_compute in (u "https://docs.google.com/document") in
  change (u "https://docs.google.com/document/d/")
    with (front ++ u "/d/").
  rewrite <- app_assoc. cbn [app].
  repeat first
    [ rewrite search_skip_slash_d by discriminate
    | rewrite search_skip_slash by discriminate
    | rewrite search_skip_char by discriminate ].
  rewrite search_doc_id_unfold, match_doc_id_at_hit; try assumption.
  - reflexivity.
  - vm_compute. reflexivity.
Qed.

(** X3. Round trip: from the export address built for an id (not empty,
    characters of the class only), [extract_doc_id] returns that id. *)
Theorem extract_doc_id_export_url :
  forall id : str,
    id <> [] ->
    Forall (fun c => is_id_char c = true) id ->
    extract_doc_id (export_url_of id) = Returned id.
Proof.
  intros id Hne Hall. unfold extract_doc_id.
  now rewrite (search_doc_id_export id Hne Hall).
Qed.

Lemma extract_doc_id_export_url_witness :
  extract_doc_id (export_url_of (u "1hWo-E6_U")) = Returned (u "1hWo-E6_U").
Proof.
  apply extract_doc_id_export_url.
  - discriminate.
  - vm_compute. repeat constructor.
Defined.

(** X4. A checker's export address is a document address of the same
    document: the checker made from it has the same id and the same
    export address. When [extract_doc_id] raises, so does the
    constructor, with the same exception. *)
Theorem LinkChecker_export_url_fixpoint :
  forall (doc_url : str),
    match LinkChecker doc_url with
    | Returned checker =>
        Checker.doc_url checker = doc_url /\
        extract_doc_id doc_url = Returned (Checker.doc_id checker) /\
        LinkChecker (Checker.export_url checker)
        = Returned {| Checker.doc_url := Checker.export_url checker;
                      Checker.doc_id := Checker.doc_id checker;
                      Checker.export_url := Checker.export_url checker |}
    | Raised e => extract_doc_id doc_url = Raised e
    end.
Proof.
  intros doc_url. unfold LinkChecker at 1.
  destruct (extract_doc_id doc_url) as [id | e] eqn:Hid; [ | reflexivity ].
  cbn [Checker.doc_url Checker.doc_id Checker.export_url].
  split; [ reflexivity | split; [ reflexivity | ] ].
  unfold extract_doc_id in Hid.
  destruct (search_doc_id doc_url) as [found | ] eqn:Hsearch;
    [ | discriminate ].
  injection Hid as ->.
  destruct (search_doc_id_some _ _ Hsearch) as (_ & _ & _ & Hne & Hall & _).
  unfold LinkChecker, extract_doc_id.
  now rewrite (search_doc_id_export id Hne Hall).
Qed.

Example LinkChecker_main_doc_url :
  LinkChecker main_doc_url
  = Returned
      {| Checker.doc_url := main_doc_url;
         Checker.doc_id := u "1hWoVry0Rl5JeTL1-OE6VyOxV3C25qkfTyEP3f6MamjU";
         Checker.export_url :=
           u "https://docs.google.com/document/d/1hWoVry0Rl5JeTL1-OE6VyOxV3C25qkfTyEP3f6MamjU/export?format=html" |}.
Proof. vm_compute. reflexivity. Qed.

(* ===================================================================== *)
(** ** Fetching the document: [fetch_document] *)
(* ===================================================================== *)

Lemma raise_for_status_cases (response : Response.t) :
  ((400 <= Response.status_code response < 600)%Z /\
   exists e : Exc.t,
     raise_for_status response = Raised e /\
     Exc.isinstance e Exc.RequestException = true) \/
  (~ (400 <= Response.status_code response < 600)%Z /\
   raise_for_status response = Returned tt).
Proof.
  unfold raise_for_status.
  destruct (400 <=? Response.status_code response)%Z eqn:Hlo;
    destruct (Response.status_code response <? 600)%Z eqn:Hhi;
    cbn [andb];
    [ left | right | right | right ];
    try apply Z.leb_le in Hlo; try apply Z.leb_gt in Hlo;
    try apply Z.ltb_lt in Hhi; try apply Z.ltb_ge in Hhi;
    (split; [ lia | ]); try reflexivity.
  eexists. split; [ reflexivity | reflexivity ].
Qed.

(** X5. [fetch_document] returns a text exactly when the export request
    was answered with that text and a status outside [400, 600): the
    body of an error page is never returned. *)
Theorem fetch_document_returns :
  forall (session_get_text : str -> result Document) (self : Checker.t)
         (text : str),
    fetch_document session_get_text self = Returned text <->
    exists response : Document,
      session_get_text (Checker.export_url self) = Returned response /\
      doc_text response = text /\
      ~ (400 <= Response.status_code (doc_response response) < 600)%Z.
Proof.
  intros get self text. unfold fetch_document.
  destruct (get (Checker.export_url self)) as [response | e].
  - destruct (raise_for_status_cases (doc_response response))
      as [(Hrange & e & -> & ->) | (Hrange & ->)].
    + split; [ discriminate | ].
      intros (response' & Heq & _ & Hout). injection Heq as <-. contradiction.
    + split.
      * intros H. injection H as <-. exists response. auto.
      * intros (response' & Heq & <- & _). now injection Heq as <-.
  - split.
    + destruct (Exc.isinstance e Exc.RequestException); discriminate.
    + intros (response' & Heq & _). discriminate.
Qed.

Lemma fetch_document_returns_witness :
  fetch_document (serve_document 200 (u "<html></html>")) sample_checker
  = Returned (u "<html></html>").
Proof.
  apply fetch_document_returns.
  exists {| doc_response := Response.mk 200; doc_text := u "<html></html>" |}.
  split; [ reflexivity | split; [ reflexivity | ] ].
  cbn [doc_response Response.status_code]. lia.
Defined.

(** X6. [fetch_document] ends the program with exit status 1 when the
    export request is answered with a status in [400, 600) or fails with
    a [RequestException]; any other exception of the request passes
    through unchanged. *)
Theorem fetch_document_exits :
  forall (session_get_text : str -> result Document) (self : Checker.t),
    (forall response : Document,
        session_get_text (Checker.export_url self) = Returned response ->
        (400 <= Response.status_code (doc_response response) < 600)%Z ->
        fetch_document session_get_text self = Raised sys_exit_1) /\
    (forall e : Exc.t,
        session_get_text (Checker.export_url self) = Raised e ->
        Exc.isinstance e Exc.RequestException = true ->
        fetch_document session_get_text self = Raised sys_exit_1) /\
    (forall e : Exc.t,
        session_get_text (Checker.export_url self) = Raised e ->
        Exc.isinstance e Exc.RequestException = false ->
        fetch_document session_get_text self = Raised e).
Proof.
  intros get self. unfold fetch_document. repeat split.
  - intros response -> Hrange.
    destruct (raise_for_status_cases (doc_response response))
      as [(_ & e & -> & ->) | (Hout & _)]; [ reflexivity | contradiction ].
  - intros e -> ->. reflexivity.
  - intros e -> ->. reflexivity.
Qed.

Lemma fetch_document_exits_witness :
  fetch_document (serve_document 404 (u "Not Found")) sample_checker
  = Raised sys_exit_1 /\
  fetch_document
    (no_document (Exc.mk Exc.ConnectTimeout (u "timed out"))) sample_checker
  = Raised sys_exit_1 /\
  fetch_document
    (no_document (Exc.mk Exc.KeyboardInterrupt (u ""))) sample_checker
  = Raised (Exc.mk Exc.KeyboardInterrupt (u "")).
Proof.
  split; [ | split ].
  - apply (proj1 (fetch_document_exits
                    (serve_document 404 (u "Not Found")) sample_checker)
             {| doc_response := Response.mk 404;
                doc_text := u "Not Found" |});
      [ reflexivity | cbn [doc_response Response.status_code]; lia ].
  - apply (proj1 (proj2 (fetch_document_exits
                           (no_document
                              (Exc.mk Exc.ConnectTimeout (u "timed out")))
                           sample_checker))
             (Exc.mk Exc.ConnectTimeout (u "timed out")));
      reflexivity.
  - apply (proj2 (proj2 (fetch_document_exits
                           (no_document
                              (Exc.mk Exc.KeyboardInterrupt (u "")))
                           sample_checker))
             (Exc.mk Exc.KeyboardInterrupt (u "")));
      reflexivity.
Defined.

(* ===================================================================== *)
(** ** More on the probe *)
(* ===================================================================== *)


(** The texts of the [except] clauses. *)
Lemma handle_statuses (url check_url : str) (e : Exc.t)
  (status_code : Z) (status : str) :
  snd (handle url e) = Returned (check_url, status_code, status) ->
  check_url = url /\ status_code = 0%Z /\
  (status = u "⏱️  TIMEOUT" \/ status = u "🔒 SSL ERROR"
   \/ status = u "❌ CONNECTION FAILED" \/ status = u "🔄 TOO MANY REDIRECTS"
   \/ status = u "❌ ERROR: " ++ slice_to 50 (Exc.str e)).
Proof.
  unfold handle, ret, raise.
  remember (u "❌ ERROR: " ++ slice_to 50 (Exc.str e)) as generic.
  remember (u "⏱️  TIMEOUT") as timeout.
  remember (u "🔒 SSL ERROR") as ssl.
  remember (u "❌ CONNECTION FAILED") as connection.
  remember (u "🔄 TOO MANY REDIRECTS") as redirects.
  destruct (Exc.isinstance e Exc.Timeout);
    [ cbn [snd]; intros H; injection H as <- <- <-; auto 10 | ].
  destruct (Exc.isinstance e Exc.SSLError);
    [ cbn [snd]; intros H; injection H as <- <- <-; auto 10 | ].
  destruct (Exc.isinstance e Exc.ConnectionError);
    [ cbn [snd]; intros H; injection H as <- <- <-; auto 10 | ].
  destruct (Exc.isinstance e Exc.TooManyRedirects);
    [ cbn [snd]; intros H; injection H as <- <- <-; auto 10 | ].
  destruct (Exc.isinstance e Exc.Exception);
    [ cbn [snd]; intros H; injection H as <- <- <-; auto 10 | ].
  cbn [snd]. discriminate.
Qed.

(** X8. Every outcome of a probe has one of two shapes: the code of the
    final response with the status text for that code, or code 0 with
    one of the five failure texts. In both, the url is the probe's. *)
Theorem check_link_outcome_shapes :
  forall (session : Session) (url check_url : str) (status_code : Z)
         (status : str),
    snd (check_link session url)
    = Returned (check_url, status_code, status) ->
    check_url = url /\
    ((exists response : Response.t,
         snd (request_with_fallback session url) = Returned response /\
         status_code = Response.status_code response /\
         status = status_for status_code) \/
     (exists e : Exc.t,
         snd (request_with_fallback session url) = Raised e /\
         status_code = 0%Z /\
         (status = u "⏱️  TIMEOUT" \/ status = u "🔒 SSL ERROR"
          \/ status = u "❌ CONNECTION FAILED"
          \/ status = u "🔄 TOO MANY REDIRECTS"
          \/ status = u "❌ ERROR: " ++ slice_to 50 (Exc.str e)))).
Proof.
  intros session url check_url status_code status Hret.
  destruct (snd (request_with_fallback session url)) as [r | e] eqn:E.
  - rewrite (check_link_of_response session url r E) in Hret.
    cbn [snd] in Hret.
    remember (status_for (Response.status_code r)) as text.
    injection Hret as <- <- <-.
    split; [ reflexivity | ]. left. exists r. subst text. auto.
  - rewrite (check_link_of_failure session url e E) in Hret.
    cbn [snd] in Hret.
    destruct (handle_statuses _ _ _ _ _ Hret) as (Hurl & Hcode & Htext).
    split; [ exact Hurl | ]. right. exists e. auto.
Qed.

Lemma check_link_outcome_shapes_witness :
  snd (check_link (server 404 503) (u "https://example.com"))
  = Returned (u "https://example.com", 503%Z, u "⚠️  SERVER ERROR") /\
  u "⚠️  SERVER ERROR" = status_for 503.
Proof.
  assert (Hrun :
    snd (check_link (server 404 503) (u "https://example.com"))
    = Returned (u "https://example.com", 503%Z, u "⚠️  SERVER ERROR"))
    by (vm_compute; reflexivity).
  split; [ exact Hrun | ].
  destruct (check_link_outcome_shapes _ _ _ _ _ Hrun)
    as (_ & [(response & _ & _ & Htext) | (e & _ & Hzero & _)]).
  - exact Htext.
  - discriminate Hzero.
Defined.

(* ===================================================================== *)
(** ** More on the report *)
(* ===================================================================== *)

Lemma check_link_returns_url (session : Session) (url check_url : str)
  (status_code : Z) (status : str) :
  snd (check_link session url) = Returned (check_url, status_code, status) ->
  check_url = url.
Proof.
  intros Hret.
  destruct (snd (request_with_fallback session url)) as [r | e] eqn:E.
  - rewrite (check_link_of_response session url r E) in Hret.
    cbn [snd] in Hret.
    remember (status_for (Response.status_code r)) as text.
    now injection Hret as <- _ _.
  - rewrite (check_link_of_failure session url e E) in Hret.
    cbn [snd] in Hret.
    now destruct (handle_statuses _ _ _ _ _ Hret) as (Hurl & _).
Qed.

Lemma in_error_range_iff (c : Z) :
  in_error_range c = true <-> (400 <= c < 600)%Z.
Proof.
  unfold in_error_range.
  rewrite andb_true_iff, Z.geb_le, Z.ltb_lt. lia.
Qed.

(** When the loop ends normally, every future had returned. *)
Lemma collect_all_finished (completed : list (Future * (str * str))) :
  forall results final : Results,
    collect results completed = Returned final ->
    exists done : list ((str * Z * str) * (str * str)),
      completed = map finished done.
Proof.
  induction completed as [ | [future link] rest IH ];
    intros results final Hcollect.
  - exists []. reflexivity.
  - cbn [collect] in Hcollect. destruct link as [url text].
    destruct future as [[[check_url status_code] status] | e];
      [ | discriminate ].
    destruct (IH _ _ Hcollect) as (done & ->).
    exists (((check_url, status_code, status), (url, text)) :: done).
    reflexivity.
Qed.

(** The futures with their links, by position in [links]. *)
Lemma submit_all_nth (net : Network) (links : list (str * str)) :
  forall (i : nat) (future : Future) (link : str * str),
    In (future, link) (submit_all net i links) ->
    exists j : nat,
      nth_error links j = Some link /\
      future = snd (check_link (net (i + j)%nat) (fst link)).
Proof.
  induction links as [ | [url text] rest IH ]; intros i future link Hin;
    cbn [submit_all] in Hin.
  - contradiction.
  - destruct Hin as [Heq | Hin].
    + injection Heq as <- <-. exists 0%nat.
      rewrite Nat.add_0_r. split; reflexivity.
    + destruct (IH (S i) future link Hin) as (j & Hnth & Hfuture).
      exists (S j). split; [ exact Hnth | ].
      now rewrite Nat.add_succ_r.
Qed.

(** A report that [check_all_links] returns is the sequence of finished
    probes, sorted into the three lists. *)
Lemma check_all_links_report (net : Network) (links : list (str * str))
  (max_workers : Z) (sched : list nat) (results : Results) :
  check_all_links net links max_workers sched = Returned results ->
  exists done : list ((str * Z * str) * (str * str)),
    as_completed sched (submit_all net 0 links) = map finished done /\
    working results = map entry_for (select Working done) /\
    broken results = map entry_for (select Broken done) /\
    errors results = map entry_for (select Errors done).
Proof.
  unfold check_all_links.
  destruct (max_workers <=? 0)%Z; [ discriminate | ].
  intros Hcollect.
  destruct (collect_all_finished _ _ _ Hcollect) as (done & Hdone).
  exists done. split; [ exact Hdone | ].
  rewrite Hdone, collect_finished in Hcollect.
  injection Hcollect as <-. cbn. auto.
Qed.

Lemma select_bucket (b : bucket)
  (done : list ((str * Z * str) * (str * str))) (entry : Entry.t) :
  In entry (map entry_for (select b done)) ->
  exists d : (str * Z * str) * (str * str),
    In d done /\ entry = entry_for d /\
    bucket_of (Entry.status_code entry) (Entry.status entry) = b.
Proof.
  intros Hin. apply in_map_iff in Hin. destruct Hin as (d & <- & Hsel).
  unfold select in Hsel. apply filter_In in Hsel. destruct Hsel as [Hd Hb].
  exists d. split; [ exact Hd | split; [ reflexivity | ] ].
  destruct d as [[[check_url status_code] status] [url text]].
  cbn [fst snd] in Hb. cbn [entry_for make_result Entry.status_code Entry.status].
  destruct (bucket_of status_code status), b; solve [ reflexivity | discriminate ].
Qed.

(** Every entry of a returned report records the outcome of the probe of
    one input link. *)
Lemma check_all_links_entry (net : Network) (links : list (str * str))
  (max_workers : Z) (sched : list nat) (results : Results) (b : bucket)
  (entry : Entry.t) :
  check_all_links net links max_workers sched = Returned results ->
  In entry
    match b with
    | Working => working results
    | Broken => broken results
    | Errors => errors results
    end ->
  bucket_of (Entry.status_code entry) (Entry.status entry) = b /\
  exists i : nat,
    nth_error links i = Some (Entry.url entry, Entry.text entry) /\
    snd (check_link (net i) (Entry.url entry))
    = Returned (Entry.url entry, Entry.status_code entry, Entry.status entry).
Proof.
  intros Hrun Hin.
  destruct (check_all_links_report _ _ _ _ _ Hrun)
    as (done & Hdone & Hw & Hb & He).
  assert (Hsel : In entry (map entry_for (select b done))).
  { destruct b; [ now rewrite <- Hw | now rewrite <- Hb | now rewrite <- He ]. }
  destruct (select_bucket b done entry Hsel) as (d & Hd & -> & Hbucket).
  split; [ exact Hbucket | ].
  assert (Hfut : In (finished d) (submit_all net 0 links)).
  { apply (Permutation_in _
             (Permutation_sym (as_completed_perm sched (submit_all net 0 links)))).
    rewrite Hdone. now apply in_map. }
  destruct d as [[[check_url status_code] status] [url text]].
  unfold finished in Hfut. cbn [fst snd] in Hfut.
  destruct (submit_all_nth net links 0 _ _ Hfut) as (j & Hnth & Hfuture).
  cbn [fst Nat.add] in Hfuture. symmetry in Hfuture.
  pose proof (check_link_returns_url _ _ _ _ _ Hfuture) as ->.
  exists j. cbn [entry_for make_result Entry.url Entry.text
                 Entry.status_code Entry.status].
  split; assumption.
Qed.

(** X9. In a returned report each of the three lists holds its entries
    in the order in which their probes finished: the lists are the
    finished probes, filtered by the list they go to. *)
Theorem check_all_links_completion_order :
  forall (net : Network) (links : list (str * str)) (max_workers : Z)
         (sched : list nat) (results : Results),
    check_all_links net links max_workers sched = Returned results ->
    exists done : list ((str * Z * str) * (str * str)),
      as_completed sched (submit_all net 0 links) = map finished done /\
      working results = map entry_for (select Working done) /\
      broken results = map entry_for (select Broken done) /\
      errors results = map entry_for (select Errors done).
Proof. exact check_all_links_report. Qed.

(** X10. In a returned report every entry under [working] carries the
    check mark in its status; every entry under [broken] carries no mark
    and a status code in [400, 600); every entry under [errors] carries
    no mark and a status code outside [400, 600). *)
Theorem check_all_links_bucket_invariant :
  forall (net : Network) (links : list (str * str)) (max_workers : Z)
         (sched : list nat) (results : Results),
    check_all_links net links max_workers sched = Returned results ->
    (forall entry : Entry.t,
        In entry (working results) ->
        marked_ok (Entry.status entry) = true) /\
    (forall entry : Entry.t,
        In entry (broken results) ->
        marked_ok (Entry.status entry) = false /\
        (400 <= Entry.status_code entry < 600)%Z) /\
    (forall entry : Entry.t,
        In entry (errors results) ->
        marked_ok (Entry.status entry) = false /\
        ~ (400 <= Entry.status_code entry < 600)%Z).
Proof.
  intros net links max_workers sched results Hrun.
  split; [ | split ]; intros entry Hin.
  - destruct (check_all_links_entry _ _ _ _ _ Working entry Hrun Hin)
      as (Hbucket & _).
    unfold bucket_of in Hbucket.
    destruct (marked_ok (Entry.status entry)); [ reflexivity | ].
    destruct (in_error_range (Entry.status_code entry)); discriminate.
  - destruct (check_all_links_entry _ _ _ _ _ Broken entry Hrun Hin)
      as (Hbucket & _).
    unfold bucket_of in Hbucket.
    destruct (marked_ok (Entry.status entry)); [ discriminate | ].
    destruct (in_error_range (Entry.status_code entry)) eqn:Hrange;
      [ | discriminate ].
    split; [ reflexivity | now apply in_error_range_iff ].
  - destruct (check_all_links_entry _ _ _ _ _ Errors entry Hrun Hin)
      as (Hbucket & _).
    unfold bucket_of in Hbucket.
    destruct (marked_ok (Entry.status entry)); [ discriminate | ].
    destruct (in_error_range (Entry.status_code entry)) eqn:Hrange;
      [ discriminate | ].
    split; [ reflexivity | ].
    intros H. apply in_error_range_iff in H. congruence.
Qed.

(** X11. Every entry of a returned report belongs to one input link, by
    position, and records what the probe of that link's url returned:
    outcomes are never attached to another link. *)
Theorem check_all_links_entries_probed :
  forall (net : Network) (links : list (str * str)) (max_workers : Z)
         (sched : list nat) (results : Results) (entry : Entry.t),
    check_all_links net links max_workers sched = Returned results ->
    In entry (working results ++ broken results ++ errors results) ->
    exists i : nat,
      nth_error links i = Some (Entry.url entry, Entry.text entry) /\
      snd (check_link (net i) (Entry.url entry))
      = Returned (Entry.url entry, Entry.status_code entry,
                  Entry.status entry).
Proof.
  intros net links max_workers sched results entry Hrun Hin.
  apply in_app_or in Hin. destruct Hin as [Hin | Hin];
    [ | apply in_app_or in Hin; destruct Hin as [Hin | Hin] ].
  - now destruct (check_all_links_entry _ _ _ _ _ Working entry Hrun Hin).
  - now destruct (check_all_links_entry _ _ _ _ _ Broken entry Hrun Hin).
  - now destruct (check_all_links_entry _ _ _ _ _ Errors entry Hrun Hin).
Qed.

Lemma check_all_links_completion_order_witness :
  exists (results : Results) (done : list ((str * Z * str) * (str * str))),
    check_all_links three_hosts three_links default_max_workers [2; 0]
    = Returned results /\
    as_completed [2; 0] (submit_all three_hosts 0 three_links)
    = map finished done /\
    working results = map entry_for (select Working done) /\
    broken results = map entry_for (select Broken done) /\
    errors results = map entry_for (select Errors done).
Proof.
  destruct (check_all_links three_hosts three_links default_max_workers
              [2; 0]) as [results | e] eqn:Hrun;
    [ | vm_compute in Hrun; discriminate Hrun ].
  destruct (check_all_links_completion_order _ _ _ _ _ Hrun) as (done & H).
  exists results, done. split; [ reflexivity | exact H ].
Defined.

Lemma check_all_links_bucket_invariant_witness :
  exists results : Results,
    check_all_links three_hosts three_links default_max_workers [2; 0]
    = Returned results /\
    (forall entry : Entry.t,
        In entry (broken results) ->
        marked_ok (Entry.status entry) = false /\
        (400 <= Entry.status_code entry < 600)%Z).
Proof.
  destruct (check_all_links three_hosts three_links default_max_workers
              [2; 0]) as [results | e] eqn:Hrun;
    [ | vm_compute in Hrun; discriminate Hrun ].
  destruct (check_all_links_bucket_invariant _ _ _ _ _ Hrun)
    as (_ & Hbroken & _).
  exists results. split; [ reflexivity | exact Hbroken ].
Defined.

Lemma check_all_links_entries_probed_witness :
  exists (results : Results) (i : nat),
    check_all_links three_hosts three_links default_max_workers [2; 0]
    = Returned results /\
    nth_error three_links i
    = Some (u "https://example.com/missing", u "x") /\
    snd (check_link (three_hosts i) (u "https://example.com/missing"))
    = Returned (u "https://example.com/missing", 404%Z,
                u "❌ BROKEN (Client Error)").
Proof.
  destruct (check_all_links three_hosts three_links default_max_workers
              [2; 0]) as [results | e] eqn:Hrun;
    [ | vm_compute in Hrun; discriminate Hrun ].
  assert (Hin :
    In (make_result (u "https://example.com/missing") (u "x") 404%Z
          (u "❌ BROKEN (Client Error)"))
       (working results ++ broken results ++ errors results)).
  { vm_compute in Hrun. injection Hrun as <-. vm_compute. right; left.
    reflexivity. }
  destruct (check_all_links_entries_probed _ _ _ _ _ _ Hrun Hin)
    as (i & Hnth & Hprobe).
  cbn [make_result Entry.url Entry.text Entry.status_code Entry.status]
    in Hnth, Hprobe.
  exists results, i. split; [ reflexivity | split; [ exact Hnth | exact Hprobe ] ].
Defined.

(** X12. What the three lists of a returned report say about the probes.
    An entry under [broken] has the status code of a final response in
    [400, 600) and the status text for that code. An entry under
    [errors] never has a status code in [200, 600). An entry under
    [working] has either the OK text with a code in [200, 400), or code 0
    and the generic error text of an exception whose message carries the
    check mark. *)
Theorem check_all_links_report_meaning :
  forall (net : Network) (links : list (str * str)) (max_workers : Z)
         (sched : list nat) (results : Results),
    check_all_links net links max_workers sched = Returned results ->
    (forall entry : Entry.t,
        In entry (broken results) ->
        (400 <= Entry.status_code entry < 600)%Z /\
        Entry.status entry = status_for (Entry.status_code entry)) /\
    (forall entry : Entry.t,
        In entry (errors results) ->
        ~ (200 <= Entry.status_code entry < 600)%Z) /\
    (forall entry : Entry.t,
        In entry (working results) ->
        ((200 <= Entry.status_code entry < 400)%Z /\
         Entry.status entry = u "✅ OK") \/
        (Entry.status_code entry = 0%Z /\
         exists e : Exc.t,
           Entry.status entry = u "❌ ERROR: " ++ slice_to 50 (Exc.str e) /\
           marked_ok (slice_to 50 (Exc.str e)) = true)).
Proof.
  intros net links max_workers sched results Hrun.
  split; [ | split ]; intros entry Hin.
  - destruct (check_all_links_entry _ _ _ _ _ Broken entry Hrun Hin)
      as (Hbucket & i & _ & Hprobe).
    destruct (bucket_of_probe_outcome _ _ _ _ _ Hprobe)
      as [(_ & Hb) | [(_ & Hrange & _) | [(_ & _ & _ & Hb) | (_ & _ & _ & Hb)]]];
      try congruence.
    apply in_error_range_iff in Hrange. split; [ exact Hrange | ].
    destruct (snd (request_with_fallback (net i) (Entry.url entry)))
      as [r | e] eqn:E.
    + rewrite (check_link_of_response _ _ r E) in Hprobe. cbn [snd] in Hprobe.
      remember (status_for (Response.status_code r)) as text.
      injection Hprobe as Hcode Htext. subst text. now rewrite <- Htext, Hcode.
    + rewrite (check_link_of_failure _ _ e E) in Hprobe. cbn [snd] in Hprobe.
      destruct (handle_statuses _ _ _ _ _ Hprobe) as (_ & Hzero & _). lia.
  - destruct (check_all_links_entry _ _ _ _ _ Errors entry Hrun Hin)
      as (Hbucket & i & _ & Hprobe).
    destruct (bucket_of_probe_outcome _ _ _ _ _ Hprobe)
      as [(_ & Hb) | [(_ & _ & Hb) | [(Hnot & Hrange & _) | (_ & _ & _ & Hb)]]];
      try congruence.
    assert (Hout : ~ (400 <= Entry.status_code entry < 600)%Z).
    { intros H. apply in_error_range_iff in H. congruence. }
    destruct (snd (request_with_fallback (net i) (Entry.url entry)))
      as [r | e] eqn:E.
    + rewrite (check_link_of_response _ _ r E) in Hprobe. cbn [snd] in Hprobe.
      remember (status_for (Response.status_code r)) as text.
      injection Hprobe as Hcode Htext. subst text.
      rewrite Hcode in Htext.
      destruct (status_for_cases (Entry.status_code entry))
        as [[_ Hs] | [[? _] | [[? _] | [? _]]]]; try lia.
      rewrite Hs in Htext. symmetry in Htext. contradiction.
    + rewrite (check_link_of_failure _ _ e E) in Hprobe. cbn [snd] in Hprobe.
      destruct (handle_statuses _ _ _ _ _ Hprobe) as (_ & Hzero & _). lia.
  - destruct (check_all_links_entry _ _ _ _ _ Working entry Hrun Hin)
      as (Hbucket & i & _ & Hprobe).
    assert (Hmark : marked_ok (Entry.status entry) = true).
    { unfold bucket_of in Hbucket.
      destruct (marked_ok (Entry.status entry)); [ reflexivity | ].
      destruct (in_error_range (Entry.status_code entry)); discriminate. }
    destruct (check_link_marked_ok _ _ _ _ _ Hprobe Hmark)
      as [Hok | (Hzero & e & _ & Htext & Hdetail)].
    + left. split; [ | exact Hok ].
      destruct (snd (request_with_fallback (net i) (Entry.url entry)))
        as [r | e] eqn:E.
      * rewrite (check_link_of_response _ _ r E) in Hprobe.
        cbn [snd] in Hprobe.
        remember (status_for (Response.status_code r)) as text.
        injection Hprobe as Hcode Htext. subst text.
        rewrite Hcode, Hok in Htext.
        destruct (response_statuses_distinct (Entry.status_code entry))
          as (Hd1 & Hd2 & _ & Hd3 & _).
        destruct (status_for_cases (Entry.status_code entry))
          as [[? _] | [[_ Hs] | [[_ Hs] | [_ Hs]]]];
          [ assumption | | | ]; rewrite Hs in Htext; symmetry in Htext;
          contradiction.
      * rewrite (check_link_of_failure _ _ e E) in Hprobe.
        cbn [snd] in Hprobe.
        destruct (handle_statuses _ _ _ _ _ Hprobe)
          as (_ & _ & [Ht | [Ht | [Ht | [Ht | Ht]]]]);
          rewrite Hok in Ht; vm_compute in Ht; discriminate Ht.
    + right. split; [ exact Hzero | ]. exists e. auto.
Qed.
